(** * ButtonGroup: selection state of a group of toggle buttons

    A shallow embedding of the [ButtonGroup] component of mineral-ui
    (the last module of [website/app/demos/ButtonGroup/examples/variants.js])
    and the properties of its selection logic.

    - [JS]: the JavaScript values, truthiness and array methods the
      component relies on.
    - [React]: elements, [cloneElement] and [Children.map].
    - [ButtonGroup]: [isChecked], [findDefaultChecked], the initial state,
      [render], [handleClick], [clickActions], [isControlled] and
      [getControllableValue], with the queue of [setState (updater,
      callback)] that a click goes through.
    - [Demo]: groups of the demo pages, as concrete inputs.
    - [Session]: runs of clicks.
    - [Theme]: [componentTheme] and [styles] of the group.
    - [Choice]: the props [Radio] and [Checkbox] hand to their root, and the
      functions they install as [inputRef]. *)

From stdpp Require Import base option list strings gmap pretty.
From Stdlib Require Import ZArith Lia Sorted Permutation.

#[local] Set Warnings "-clear-no-such-hyp,-register-all".

Local Open Scope Z_scope.

(* ===================================================================== *)
(** ** JavaScript values and array methods *)
(* ===================================================================== *)

Module JS.

(** Property values of an element. [VCompose h i] is the function
    [composeEventHandlers(h, this.handleClick.bind(null, i))]; [VFun f] is a
    function supplied by the caller, known by its identity only. *)
Inductive Value : Type :=
| VUndefined
| VBool (b : bool)
| VNum (n : Z)
| VStr (s : string)
| VFun (f : nat)
| VCompose (h : Value) (i : Z).

(** ToBoolean *)
Definition truthy (v : Value) : bool :=
  match v with
  | VUndefined => false
  | VBool b => b
  | VNum n => negb (n =? 0)
  | VStr s => negb (String.eqb s "")
  | VFun _ | VCompose _ _ => true
  end.

(** [a || b] *)
Definition or (a b : Value) : Value := if truthy a then a else b.

(** An object read as a finite map of its own properties; [o.k] of a
    property the object lacks is [undefined]. *)
Definition get (o : gmap string Value) (k : string) : Value :=
  default VUndefined (o !! k).

(** [{ ...a, ...b }]: the properties of [b] win. *)
Definition spread (a b : gmap string Value) : gmap string Value := b ∪ a.

(** [...(c ? { k: v } : undefined)] *)
Definition spread_if (c : bool) (k : string) (v : Value) : gmap string Value :=
  if c then {[ k := v ]} else ∅.

(** [Array.prototype.indexOf] on an array of numbers: the first position
    holding [x], or [-1]. *)
Fixpoint indexOf_from (l : list Z) (x : Z) (pos : Z) : Z :=
  match l with
  | [] => -1
  | y :: t => if y =? x then pos else indexOf_from t x (pos + 1)
  end.

Definition indexOf (l : list Z) (x : Z) : Z := indexOf_from l x 0.

(** [Array.prototype.push] (the array after the call). *)
Definition push (l : list Z) (x : Z) : list Z := l ++ [x].

(** [l.splice(start, 1)] (the array after the call): a negative [start]
    counts from the end, a [start] past the end removes nothing. *)
Definition splice1 (l : list Z) (start : Z) : list Z :=
  let len := Z.of_nat (length l) in
  let s := if start <? 0 then Z.max (len + start) 0 else Z.min start len in
  delete (Z.to_nat s) l.

(** [Array.prototype.find] together with the position it stopped at. *)
Fixpoint find_from {A} (f : A -> bool) (l : list A) (pos : Z) : option (Z * A) :=
  match l with
  | [] => None
  | a :: t => if f a then Some (pos, a) else find_from f t (pos + 1)
  end.

End JS.

(* ===================================================================== *)
(** ** The part of React the component uses *)
(* ===================================================================== *)

Module React.
Import JS.

(** An element: its key, its props and the [defaultProps] of its type. *)
Record Element : Type := mkElement {
  key : Value;
  props : gmap string Value;
  defaultProps : gmap string Value
}.

(** [React$Node] as the [children] prop holds it: nothing, one element, or
    an array of elements (two children or more). *)
Inductive Node : Type :=
| NoChildren
| OneChild (e : Element)
| ChildArray (l : list Element).

(** [Array.isArray(children)], with the array *)
Definition as_array (n : Node) : option (list Element) :=
  match n with
  | ChildArray l => Some l
  | _ => None
  end.

(** The children as [Children.map] walks them. *)
Definition toList (n : Node) : list Element :=
  match n with
  | NoChildren => []
  | OneChild e => [e]
  | ChildArray l => l
  end.

(** [Children.map(children, f)], [f] receiving the child and its position. *)
Definition Children_map {B} (n : Node) (f : Element -> Z -> B) : list B :=
  imap (fun i e => f e (Z.of_nat i)) (toList n).

(** [cloneElement(element, config)]: every own property of [config] replaces
    the element's, an [undefined] one resolving to the type's default;
    [key] is reserved and becomes the clone's key, not a prop. *)
Definition resolve (dflt : gmap string Value) (k : string) (v : Value) : Value :=
  match v with
  | VUndefined => get dflt k
  | _ => v
  end.

Definition cloneElement (e : Element) (config : gmap string Value) : Element :=
  {| key := match config !! "key" with
            | Some VUndefined | None => key e
            | Some k => k
            end;
     props := map_imap (fun k v => Some (resolve (defaultProps e) k v))
                       (delete "key" config) ∪ props e;
     defaultProps := defaultProps e |}.

End React.

(* ===================================================================== *)
(** ** The component *)
(* ===================================================================== *)

Module ButtonGroup.
Import JS React.

Inductive Mode : Type := checkbox | radio.
Inductive Size : Type := small | medium | large | jumbo.
Inductive Variant : Type := danger | success | warning.

Definition mode_str (m : Mode) : string :=
  match m with checkbox => "checkbox" | radio => "radio" end.

Definition size_str (s : Size) : string :=
  match s with
  | small => "small" | medium => "medium" | large => "large" | jumbo => "jumbo"
  end.

Definition variant_str (v : Variant) : string :=
  match v with
  | danger => "danger" | success => "success" | warning => "warning"
  end.

(** [number | Array<number>]: the selection as props and state hold it. *)
Inductive Checked : Type :=
| Index (n : Z)
| Indices (l : list Z).

(** ToBoolean of a selection value: [0] is falsy, an array never is. *)
Definition truthy_checked (c : Checked) : bool :=
  match c with
  | Index n => negb (n =? 0)
  | Indices _ => true
  end.

(** [a || b], [a] possibly [undefined] *)
Definition or_checked (a : option Checked) (b : Checked) : Checked :=
  match a with
  | Some v => if truthy_checked v then v else b
  | None => b
  end.

(** The props the selection logic reads. An absent optional prop is [None];
    for [checked], [None] is "not an own property" ([isControlled]).
    [onChange] and [onClick] are the caller's functions, known by identity. *)
Record Props : Type := mkProps {
  checked : option Checked;
  children : Node;
  defaultChecked : option Checked;
  disabled : option bool;
  mode : option Mode;
  onChange : option nat;
  onClick : option nat;
  size : option Size;
  variant : option Variant
}.

Record State : Type := mkState { state_checked : Checked }.

Record Instance : Type := mkInstance { inst_props : Props; inst_state : State }.

(** The click event: [data_index] is what
    [parseInt(currentTarget.getAttribute('data-index'))] reads. *)
Record Event : Type := mkEvent { data_index : Z; persisted : bool }.

Definition persist (e : Event) : Event :=
  {| data_index := data_index e; persisted := true |}.

(** A call of one of the caller's functions, with the state the instance
    held when the call was made. *)
Inductive Which : Type := OnClick | OnChange.

Record Call : Type := mkCall {
  which : Which;
  callee : nat;
  arg : Event;
  observed : State
}.

(** Code that runs against [this.props] and [this.state]. *)
Definition Effect : Type := Props -> State -> list Call.

(** [setState(updater, callback)] as queued: the updater applied to the
    previous state gives the next one and the callback to run once it is
    committed (the callback closes over what the updater assigned). *)
Definition Update : Type := State -> State * Effect.

(** Modelled from the spec: [toArray] of [utils/collections] is imported by
    the component but is not among the sources. A Selection is "either a
    single index or a set of indices", so an array is returned as it is and
    a single index becomes the one-element array holding it. *)
Definition toArray (c : Checked) : list Z :=
  match c with
  | Indices l => l
  | Index n => [n]
  end.

Definition isChecked (checked : Checked) (index : Z) : bool :=
  match checked with
  | Indices l => negb (indexOf l index =? -1)
  | Index n => n =? index
  end.

(** [button.props.defaultChecked] as a condition *)
Definition button_defaultChecked (button : Element) : bool :=
  truthy (get (props button) "defaultChecked").

Definition addDefaultIndex (checked : Checked) (index : Z) : Checked :=
  match checked with
  | Indices l => Indices (push l index)
  | Index _ => checked
  end.

(** In the [else] branch [find] stops at the first default-checked button,
    and [indexOf] finds that same object at the position [find] stopped at. *)
Definition findDefaultChecked (p : Props) : Checked :=
  let checked := Indices [] in
  match mode p with
  | Some checkbox =>
      match as_array (children p) with
      | Some l =>
          foldl (fun checked '(index, button) =>
                   if button_defaultChecked button
                   then addDefaultIndex checked index else checked)
                checked (imap (fun i b => (Z.of_nat i, b)) l)
      | None => checked
      end
  | _ =>
      match as_array (children p) with
      | Some l =>
          let index :=
            match find_from button_defaultChecked l 0 with
            | Some (i, _) => i
            | None => -1
            end in
          if negb (index =? -1) then Indices [index] else checked
      | None => checked
      end
  end.

(** [state = { checked: this.props.defaultChecked ||
                        findDefaultChecked(this.props) || -1 }] *)
Definition initialState (p : Props) : State :=
  {| state_checked :=
       or_checked (defaultChecked p)
         (or_checked (Some (findDefaultChecked p)) (Index (-1))) |}.

Definition mount (p : Props) : Instance :=
  {| inst_props := p; inst_state := initialState p |}.

(** New props arrive (the parent renders again): [this.props] is replaced,
    [this.state] is kept; the class declares no lifecycle method. *)
Definition receiveProps (i : Instance) (p : Props) : Instance :=
  {| inst_props := p; inst_state := inst_state i |}.

(** [this.props.hasOwnProperty(prop)] *)
Definition isControlled (p : Props) (prop : string) : bool :=
  if String.eqb prop "checked" then bool_decide (is_Some (checked p))
  else if String.eqb prop "children" then true
  else if String.eqb prop "defaultChecked" then bool_decide (is_Some (defaultChecked p))
  else if String.eqb prop "disabled" then bool_decide (is_Some (disabled p))
  else if String.eqb prop "mode" then bool_decide (is_Some (mode p))
  else if String.eqb prop "onChange" then bool_decide (is_Some (onChange p))
  else if String.eqb prop "onClick" then bool_decide (is_Some (onClick p))
  else if String.eqb prop "size" then bool_decide (is_Some (size p))
  else if String.eqb prop "variant" then bool_decide (is_Some (variant p))
  else false.

(** [getControllableValue('checked')] *)
Definition getControllableValue (p : Props) (s : State) : Checked :=
  if isControlled p "checked"
  then match checked p with Some c => c | None => state_checked s end
  else state_checked s.

Definition of_bool (b : option bool) : Value :=
  match b with Some b => VBool b | None => VUndefined end.

Definition of_size (s : option Size) : Value :=
  match s with Some s => VStr (size_str s) | None => VUndefined end.

Definition of_variant (v : option Variant) : Value :=
  match v with Some v => VStr (variant_str v) | None => VUndefined end.

(** The object literal handed to [cloneElement] for the child at [index]. *)
Definition childConfig (p : Props) (checked : Checked)
    (child : Element) (index : Z) : gmap string Value :=
  let isChildToggleable :=
    match mode p with Some _ => true | None => false end && true in
  let isChildChecked := isChecked checked index in
  foldl spread ∅
    [ spread_if isChildToggleable "aria-checked" (VBool isChildChecked);
      {[ "data-index" := VNum index ]};
      {[ "disabled" := or (of_bool (disabled p)) (get (props child) "disabled") ]};
      {[ "key" := VNum index ]};
      spread_if (isChildToggleable && isChildChecked) "primary" (VBool true);
      {[ "onClick" := VCompose (get (props child) "onClick") index ]};
      spread_if isChildToggleable "role"
        (match mode p with Some m => VStr (mode_str m) | None => VUndefined end);
      {[ "size" := of_size (size p) ]};
      spread_if (truthy (of_variant (variant p))) "variant" (of_variant (variant p)) ].

(** The [buttons] of [render]. *)
Definition render (p : Props) (s : State) : list Element :=
  let checked := getControllableValue p s in
  Children_map (children p)
    (fun child index => cloneElement child (childConfig p checked child index)).

Definition rootRole (p : Props) : string :=
  match mode p with Some radio => "radiogroup" | _ => "group" end.

(** [clickActions(event, changed = true)] *)
Definition clickActions (event : Event) (changed : option bool) : Effect :=
  fun p s =>
    let changed := default true changed in
    match onClick p with
    | Some f => [mkCall OnClick f event s]
    | None => []
    end ++
    (if changed
     then match onChange p with
          | Some f => [mkCall OnChange f event s]
          | None => []
          end
     else []).

(** The updater handed to [setState]: the next state, and [changed] as the
    updater leaves it. [push] and [splice] work in place on the array
    [toArray] returned; [checked] below is that array after the call, and
    [checked && ...] tests an array, which is truthy. *)
Definition updater (m : Mode) (target : Event) (prevState : State) : State * bool :=
  let changed := true in
  match m with
  | checkbox =>
      let checked := toArray (state_checked prevState) in
      let i := indexOf checked (data_index target) in
      let hasValue := negb (i =? -1) in
      let checked :=
        if true && negb hasValue then push checked (data_index target)
        else if hasValue then splice1 checked i
        else checked in
      ({| state_checked := Indices checked |}, changed)
  | radio =>
      let checked := data_index target in
      let changed :=
        match toArray (state_checked prevState) with
        | first :: _ => negb (first =? checked)
        | [] => true
        end in
      ({| state_checked := Index checked |}, changed)
  end.

(** [handleClick(index, event)]: the calls it makes itself and the state
    updates it queues. *)
Definition handleClick (index : Z) (event : Event)
    (p : Props) (s : State) : list Call * list Update :=
  match mode p with
  | None => (clickActions event (Some false) p s, [])
  | Some m =>
      let event := persist event in
      let target := event in
      if isControlled p "checked" then (clickActions event None p s, [])
      else
        ([], [fun prevState =>
                let '(next, changed) := updater m target prevState in
                (next, clickActions event (Some changed))])
  end.

(** React's processing of the queue: the updaters run in order, the result
    is committed, then the callbacks run in order. *)
Definition runUpdaters (s : State) (us : list Update) : State * list Effect :=
  foldl (fun '(st, cbs) (u : Update) => let '(st', cb) := u st in (st', cbs ++ [cb]))
        (s, []) us.

Definition flush (p : Props) (s : State) (us : list Update) : State * list Call :=
  let '(s', cbs) := runUpdaters s us in
  (s', concat (map (fun cb : Effect => cb p s') cbs)).

(** A click reaching [handleClick]: the handler runs, then the queue. *)
Definition dispatch (i : Instance) (index : Z) (event : Event) : Instance * list Call :=
  let '(now, us) := handleClick index event (inst_props i) (inst_state i) in
  let '(s', later) := flush (inst_props i) (inst_state i) us in
  ({| inst_props := inst_props i; inst_state := s' |}, now ++ later).

(** The Selection as a set of indices. *)
Definition selection (c : Checked) : gset Z := list_to_set (toArray c).

(** Its cardinality: the number of distinct indices it holds. *)
Definition cardinality (c : Checked) : nat := base.size (selection c).

(** The Selection a render decorates the children with. *)
Definition current (i : Instance) : Checked :=
  getControllableValue (inst_props i) (inst_state i).

Definition fired (w : Which) (log : list Call) : bool :=
  existsb (fun c => match which c, w with
                    | OnClick, OnClick | OnChange, OnChange => true
                    | _, _ => false
                    end) log.

End ButtonGroup.

(* ===================================================================== *)
(** ** Groups of the demo pages, used as concrete inputs *)
(* ===================================================================== *)

Module Demo.
Import JS React ButtonGroup.

Definition button (label : string) (own : gmap string Value) : Element :=
  {| key := VUndefined;
     props := <[ "children" := VStr label ]> own;
     defaultProps := ∅ |}.

Definition group (m : option Mode) (dflt : option Checked) (kids : list Element) : Props :=
  {| checked := None; children := ChildArray kids; defaultChecked := dflt;
     disabled := None; mode := m; onChange := Some 1%nat; onClick := Some 2%nat;
     size := None; variant := None |}.

(** [<ButtonGroup ariaLabel="Align text" mode="radio">], first button
    [defaultChecked] (icons demo) *)
Definition alignText : Props :=
  group (Some radio) None
    [ button "Left" {[ "defaultChecked" := VBool true ]};
      button "Center" ∅; button "Right" ∅ ].

(** [<ButtonGroup ariaLabel="Format text" mode="checkbox">] (icons demo) *)
Definition formatText : Props :=
  group (Some checkbox) None
    [ button "Bold" ∅; button "Italic" ∅; button "Underlined" ∅ ].

(** [<ButtonGroup ariaLabel="Align text" defaultChecked={0} mode="radio">]
    (disabled demo) *)
Definition alignTextDefault0 : Props :=
  group (Some radio) (Some (Index 0))
    [ button "Left" ∅; button "Center" ∅;
      button "Right" {[ "disabled" := VBool true ]} ].

(** [<ButtonGroup ariaLabel="Edit text">] (disabled demo), no mode *)
Definition editText : Props :=
  group None None [ button "Cut" ∅; button "Copy" ∅; button "Paste" ∅ ].

Definition clickOn (i : Z) : Event := {| data_index := i; persisted := false |}.

(** [<ButtonGroup mode="checkbox" defaultChecked={[1, 1]}>] *)
Definition formatTextRepeated : Props :=
  group (Some checkbox) (Some (Indices [1; 1]))
    [ button "Bold" ∅; button "Italic" ∅; button "Underlined" ∅ ].

(** [<ButtonGroup variant="success" mode="radio">] around the three
    buttons of the Sentiments group, each with a variant of its own. *)
Definition sentimentsSuccess : Props :=
  {| checked := None;
     children := ChildArray
       [ button "Satisfied" {[ "variant" := VStr "success" ]};
         button "Neutral" {[ "variant" := VStr "warning" ]};
         button "Unsatisfied" {[ "variant" := VStr "danger" ]} ];
     defaultChecked := None; disabled := None; mode := Some radio;
     onChange := None; onClick := None; size := None;
     variant := Some success |}.

(** A controlled radio group showing index 0. *)
Definition alignTextControlled : Props :=
  {| checked := Some (Index 0); children := children alignText;
     defaultChecked := None; disabled := None; mode := Some radio;
     onChange := Some 1%nat; onClick := Some 2%nat; size := None;
     variant := None |}.

(** A radio group of three children, all [defaultChecked]. *)
Definition allDefaultChecked : Props :=
  group (Some radio) None
    [ button "Left" {[ "defaultChecked" := VBool true ]};
      button "Center" {[ "defaultChecked" := VBool true ]};
      button "Right" {[ "defaultChecked" := VBool true ]} ].

(** [<ButtonGroup mode="radio" defaultChecked={[0, 1]}>] *)
Definition alignTextTwoDefaults : Props :=
  group (Some radio) (Some (Indices [0; 1]))
    [ button "Left" ∅; button "Center" ∅; button "Right" ∅ ].

(** The Align text group after its third child is removed. *)
Definition alignTextShrunk : Props :=
  group (Some radio) None
    [ button "Left" {[ "defaultChecked" := VBool true ]}; button "Center" ∅ ].

Definition alignTextRightSelected : Instance :=
  (dispatch (mount alignText) 2 (clickOn 2)).1.

End Demo.

(* ===================================================================== *)
(** ** Sequences of clicks *)
(* ===================================================================== *)

Module Session.
Import JS React ButtonGroup.

(** The event of a click on the child rendered at position [i]: [render]
    tags that child with [data-index] [i]. *)
Definition clickAt (i : Z) : Event := {| data_index := i; persisted := false |}.

(** The children at positions [l] are clicked one after the other, each
    click processed, queue included, before the next. *)
Definition clicks (i : Instance) (l : list Z) : Instance :=
  foldl (fun inst k => (dispatch inst k (clickAt k)).1) i l.

(** The positions of the default-checked buttons of [l], in order, the
    first button of [l] standing at position [n]. *)
Fixpoint defaultPositions (l : list Element) (n : nat) : list Z :=
  match l with
  | [] => []
  | b :: t =>
      if button_defaultChecked b
      then Z.of_nat n :: defaultPositions t (S n)
      else defaultPositions t (S n)
  end.

(** The keys [render] can hand to [cloneElement]. *)
Definition configKeys : list string :=
  [ "aria-checked"; "data-index"; "disabled"; "key"; "primary"; "onClick";
    "role"; "size"; "variant" ].

(** A radio group with a sole child, marked [defaultChecked]. *)
Definition soleChild : Props :=
  {| checked := None;
     children := OneChild
       {| key := VUndefined;
          props := {[ "defaultChecked" := VBool true ]};
          defaultProps := ∅ |};
     defaultChecked := None; disabled := None; mode := Some radio;
     onChange := None; onClick := None; size := None; variant := None |}.

(** A radio group whose first child is marked [defaultChecked], given
    [defaultChecked={[]}]. *)
Definition emptyDefault : Props :=
  {| checked := None;
     children := ChildArray
       [ {| key := VUndefined;
            props := {[ "defaultChecked" := VBool true ]};
            defaultProps := ∅ |};
         {| key := VUndefined; props := ∅; defaultProps := ∅ |} ];
     defaultChecked := Some (Indices []); disabled := None; mode := Some radio;
     onChange := None; onClick := None; size := None; variant := None |}.

End Session.

(* ===================================================================== *)
(** ** The theme and the styles of the group *)
(* ===================================================================== *)

Module Theme.

(** The values a theme holds and a style declares: primitives. *)
Inductive Token : Type :=
| TUndefined
| TBool (b : bool)
| TNum (n : Z)
| TStr (s : string).

(** ToBoolean *)
Definition truthy (t : Token) : bool :=
  match t with
  | TUndefined => false
  | TBool b => b
  | TNum n => negb (n =? 0)
  | TStr s => negb (String.eqb s "")
  end.

(** ToString, as a template literal applies it. *)
Definition toString (t : Token) : string :=
  match t with
  | TUndefined => "undefined"
  | TBool true => "true"
  | TBool false => "false"
  | TNum n => pretty n
  | TStr s => s
  end.

(** [theme.k] *)
Definition read (theme : gmap string Token) (k : string) : Token :=
  default TUndefined (theme !! k).

(** The five variables of the component, as the object literal of
    [componentTheme] derives them from the base theme. *)
Definition defaults (baseTheme : gmap string Token) : gmap string Token :=
  <[ "ButtonGroupButton_backgroundColor_checkedDisabled" :=
       read baseTheme "color_gray_40" ]>
  (<[ "ButtonGroupButton_border_disabled" :=
        TStr ("solid 1px " +:+ toString (read baseTheme "borderColor")) ]>
  (<[ "ButtonGroupButton_borderStartColor" := read baseTheme "borderColor" ]>
  (<[ "ButtonGroupButton_borderStartColor_checked" := TStr "currentcolor" ]>
  (<[ "ButtonGroupButton_color_checkedDisabled" :=
        read baseTheme "color_gray_60" ]> ∅)))).

(** [componentTheme(baseTheme)]: the literal, then [...baseTheme], whose
    own properties win. *)
Definition componentTheme (baseTheme : gmap string Token) : gmap string Token :=
  baseTheme ∪ defaults baseTheme.

(** The names of the five variables. *)
Definition variables : list string :=
  [ "ButtonGroupButton_backgroundColor_checkedDisabled";
    "ButtonGroupButton_border_disabled";
    "ButtonGroupButton_borderStartColor";
    "ButtonGroupButton_borderStartColor_checked";
    "ButtonGroupButton_color_checkedDisabled" ].

(** A style object: a declared value, or nested rules. The order of the
    keys of an object is not represented. *)
Inductive Css : Type :=
| Prim (t : Token)
| Rules (o : gmap string Css).

(** [{ k1: v1, ..., kn: vn }] *)
Definition object (l : list (string * Css)) : Css := Rules (list_to_map l).

(** [a && b] *)
Definition and (a b : Token) : Token := if truthy a then b else a.

(** [styles({ fullWidth, theme: baseTheme, vertical })] *)
Definition styles (fullWidth : Token) (baseTheme : gmap string Token)
    (vertical : Token) : Css :=
  let theme := componentTheme baseTheme in
  let direction := read theme "direction" in
  let rtl :=
    match direction with
    | TStr s => String.eqb s "rtl"
    | _ => false
    end in
  let vertical := truthy vertical in
  object
    [ ("display", Prim (TStr "flex"));
      ("flexDirection", Prim (TStr (if vertical then "column" else "row")));
      ("& button",
        object
          [ ("flexGrow", Prim (and fullWidth (TNum 1)));
            ("&:focus, &:active", object [ ("position", Prim (TStr "relative")) ]);
            ("&[disabled]",
              object
                [ ("border", Prim (read theme "ButtonGroupButton_border_disabled"));
                  ("&[aria-checked=true]",
                    object
                      [ ("backgroundColor",
                          Prim (read theme
                                  "ButtonGroupButton_backgroundColor_checkedDisabled"));
                        ("color",
                          Prim (read theme "ButtonGroupButton_color_checkedDisabled"));
                        ("&:hover",
                          object
                            [ ("color",
                                Prim (read theme
                                        "ButtonGroupButton_color_checkedDisabled")) ])
                      ]) ]) ]);
      ("& > button:not(:first-child), & > *:not(:first-child) button",
        if rtl && negb vertical then
          object [ ("borderRightColor", Prim (TStr "transparent"));
                   ("borderBottomRightRadius", Prim (TNum 0));
                   ("borderTopRightRadius", Prim (TNum 0)) ]
        else if negb rtl && negb vertical then
          object [ ("borderLeftColor", Prim (TStr "transparent"));
                   ("borderBottomLeftRadius", Prim (TNum 0));
                   ("borderTopLeftRadius", Prim (TNum 0)) ]
        else
          object [ ("borderTopColor", Prim (TStr "transparent"));
                   ("borderTopLeftRadius", Prim (TNum 0));
                   ("borderTopRightRadius", Prim (TNum 0)) ]);
      ("& > button:not(:last-child), & > *:not(:last-child) button",
        if rtl && negb vertical then
          object [ ("borderBottomLeftRadius", Prim (TNum 0));
                   ("borderTopLeftRadius", Prim (TNum 0)) ]
        else if negb rtl && negb vertical then
          object [ ("borderBottomRightRadius", Prim (TNum 0));
                   ("borderTopRightRadius", Prim (TNum 0)) ]
        else
          object [ ("borderBottomLeftRadius", Prim (TNum 0));
                   ("borderBottomRightRadius", Prim (TNum 0)) ]);
      ("& > [aria-checked]:not(:last-child)",
        if rtl && negb vertical then
          object [ ("borderLeftColor", Prim (TStr "transparent")) ]
        else if negb rtl && negb vertical then
          object [ ("borderRightColor", Prim (TStr "transparent")) ]
        else
          object [ ("borderBottomColor", Prim (TStr "transparent")) ]);
      ("& > [aria-checked=false] + *:not(button) button",
        if rtl && negb vertical then
          object [ ("borderRightColor",
                     Prim (read theme "ButtonGroupButton_borderStartColor")) ]
        else if negb rtl && negb vertical then
          object [ ("borderLeftColor",
                     Prim (read theme "ButtonGroupButton_borderStartColor")) ]
        else
          object [ ("borderTopColor",
                     Prim (read theme "ButtonGroupButton_borderStartColor")) ]);
      ("& > [aria-checked=true] + [aria-checked=true]",
        object
          [ ("&:not(:focus), & button:not(:focus)",
              if vertical then
                object [ ("borderTopColor",
                           Prim (read theme
                                   "ButtonGroupButton_borderStartColor_checked")) ]
              else
                object
                  [ ("borderLeftColor",
                      Prim (and (TBool (negb rtl))
                              (read theme
                                 "ButtonGroupButton_borderStartColor_checked")));
                    ("borderRightColor",
                      Prim (and (TBool rtl)
                              (read theme
                                 "ButtonGroupButton_borderStartColor_checked"))) ])
          ]);
      ("& > [aria-checked=false], & > *:not([aria-checked])",
        object
          [ ("&:focus, & button:focus",
              if vertical then
                object
                  [ ("borderTopColor",
                      Prim (read theme "ButtonGroupButton_borderStartColor"));
                    ("borderBottomColor",
                      Prim (read theme "ButtonGroupButton_borderStartColor")) ]
              else
                object
                  [ ("borderLeftColor",
                      Prim (read theme "ButtonGroupButton_borderStartColor"));
                    ("borderRightColor",
                      Prim (read theme "ButtonGroupButton_borderStartColor")) ])
          ]);
      ("& > [aria-checked=false] + [aria-checked=false]",
        object
          [ ("&:not(:focus)",
              if vertical then
                object [ ("borderTopColor",
                           Prim (read theme "ButtonGroupButton_borderStartColor")) ]
              else
                object
                  [ ("borderLeftColor",
                      Prim (and (TBool (negb rtl))
                              (read theme "ButtonGroupButton_borderStartColor")));
                    ("borderRightColor",
                      Prim (and (TBool rtl)
                              (read theme "ButtonGroupButton_borderStartColor"))) ])
          ]) ].

(** The declaration at the end of a path of keys, if the object has one. *)
Fixpoint at_path (c : Css) (path : list string) : option Css :=
  match path with
  | [] => Some c
  | k :: rest =>
      match c with
      | Rules o =>
          match o !! k with
          | Some c' => at_path c' rest
          | None => None
          end
      | Prim _ => None
      end
  end.

(** A property name with left and right exchanged. *)
Definition flip_side (k : string) : string :=
  if String.eqb k "borderLeftColor" then "borderRightColor"
  else if String.eqb k "borderRightColor" then "borderLeftColor"
  else if String.eqb k "borderBottomLeftRadius" then "borderBottomRightRadius"
  else if String.eqb k "borderBottomRightRadius" then "borderBottomLeftRadius"
  else if String.eqb k "borderTopLeftRadius" then "borderTopRightRadius"
  else if String.eqb k "borderTopRightRadius" then "borderTopLeftRadius"
  else k.

(** A style object with left and right exchanged in every property name. *)
Fixpoint mirror (c : Css) : Css :=
  match c with
  | Prim t => Prim t
  | Rules o => Rules (kmap flip_side (mirror <$> o))
  end.

End Theme.

(* ===================================================================== *)
(** ** Radio and Checkbox *)
(* ===================================================================== *)

Module Choice.
Import JS.

(** The values of the props of [Radio] and [Checkbox]: primitives and the
    caller's functions ([Plain]), elements (by the name of their type),
    objects, and the two functions the components create for [inputRef]. *)
Inductive PV : Type :=
| Plain (v : Value)
| Elem (type : string)
| Obj (o : gmap string PV)
| RadioRef (inputRef : PV)
| CheckboxRef (indeterminate inputRef : PV).

Definition undefined : PV := Plain VUndefined.

Definition is_undefined (v : PV) : bool :=
  match v with
  | Plain VUndefined => true
  | _ => false
  end.

(** ToBoolean: objects, elements and functions are truthy. *)
Definition truthyPV (v : PV) : bool :=
  match v with
  | Plain v => truthy v
  | _ => true
  end.

(** [props.k] *)
Definition getp (o : gmap string PV) (k : string) : PV :=
  default undefined (o !! k).

(** A destructured prop with a default value, [k = dflt]: the default
    stands in for [undefined], whether the prop is absent or passed so. *)
Definition with_default (v dflt : PV) : PV :=
  if is_undefined v then dflt else v.

(** [...o] inside an object literal, [o] an object or [undefined]. *)
Definition own (v : PV) : gmap string PV :=
  match v with
  | Obj o => o
  | _ => ∅
  end.

(** [...restProps] of a destructuring that names [keys]. *)
Definition rest (props : gmap string PV) (keys : list string) : gmap string PV :=
  foldr delete props keys.

(** The props [Radio] hands to its [Root]. *)
Definition Radio (props : gmap string PV) : gmap string PV :=
  let className := getp props "className" in
  let controlPosition :=
    with_default (getp props "controlPosition") (Plain (VStr "start")) in
  let inputRef := getp props "inputRef" in
  let otherRootProps := getp props "rootProps" in
  let size := with_default (getp props "size") (Plain (VStr "large")) in
  let restProps :=
    rest props ["className"; "controlPosition"; "inputRef"; "rootProps"; "size"] in
  restProps ∪
  list_to_map
    [ ("controlPosition", controlPosition);
      ("iconChecked", Elem "IconRadioButtonCheck");
      ("inputRef", RadioRef inputRef);
      ("rootProps", Obj (own otherRootProps ∪ {[ "className" := className ]}));
      ("size", size);
      ("type", Plain (VStr "radio")) ].

(** The props [Checkbox] hands to its [Root]. *)
Definition Checkbox (props : gmap string PV) : gmap string PV :=
  let className := getp props "className" in
  let controlPosition :=
    with_default (getp props "controlPosition") (Plain (VStr "start")) in
  let indeterminate := getp props "indeterminate" in
  let inputRef := getp props "inputRef" in
  let otherRootProps := getp props "rootProps" in
  let size := with_default (getp props "size") (Plain (VStr "large")) in
  let restProps :=
    rest props ["className"; "controlPosition"; "indeterminate"; "inputRef";
                "rootProps"; "size"] in
  restProps ∪
  list_to_map
    [ ("controlPosition", controlPosition);
      ("iconChecked",
        if truthyPV indeterminate then Elem "IconCheckBoxIndeterminate"
        else Elem "IconCheckBoxCheck");
      ("inputRef", CheckboxRef indeterminate inputRef);
      ("rootProps", Obj (own otherRootProps ∪ {[ "className" := className ]}));
      ("size", size);
      ("type", Plain (VStr "checkbox")) ].

(** The input element a ref points to: the one property the code writes.
    Assigning to it coerces the value to a boolean. *)
Record Input : Type := mkInput { input_indeterminate : bool }.

(** [if (inputRef) { inputRef(ref); }]: the calls made of the caller's
    function, each with the ref as it was at the call; [None] is the
    TypeError of calling a truthy value that is no function. *)
Definition forward (inputRef : PV) (ref : option Input)
    : option (list (nat * option Input)) :=
  if truthyPV inputRef
  then match inputRef with
       | Plain (VFun f) => Some [(f, ref)]
       | _ => None
       end
  else Some [].

(** A call of the function a component installed as [inputRef], with a
    node or with [null]: the node after the call (when no error is raised)
    and the calls made of the caller's function. *)
Definition callRef (fn : PV) (ref : option Input)
    : option (option Input * list (nat * option Input)) :=
  match fn with
  | RadioRef inputRef =>
      calls ← forward inputRef ref; Some (ref, calls)
  | CheckboxRef indeterminate inputRef =>
      let ref :=
        match ref with
        | Some _ => Some {| input_indeterminate := truthyPV indeterminate |}
        | None => None
        end in
      calls ← forward inputRef ref; Some (ref, calls)
  | _ => None
  end.

(** [<Radio type="hidden" />] *)
Definition typedRadio : gmap string PV := {[ "type" := Plain (VStr "hidden") ]}.

(** [<Checkbox indeterminate inputRef={f7} />] *)
Definition indeterminateBox : gmap string PV :=
  <[ "indeterminate" := Plain (VBool true) ]> {[ "inputRef" := Plain (VFun 7) ]}.

(** [<Radio inputRef={f3} />] *)
Definition refRadio : gmap string PV := {[ "inputRef" := Plain (VFun 3) ]}.

End Choice.

(* ===================================================================== *)
(** ** Properties *)
(* ===================================================================== *)

Import JS React ButtonGroup Demo.

(** *** Array methods *)

Section ArrayMethods.

Implicit Types (l : list Z) (x y pos : Z).

Lemma indexOf_from_lower l x pos :
  indexOf_from l x pos = -1 \/ pos <= indexOf_from l x pos.
Proof.
  revert pos. induction l as [|y t IH]; intros pos; simpl; [by left|].
  destruct (y =? x); [right; lia|].
  destruct (IH (pos + 1)) as [->|?]; [by left | right; lia].
Qed.

Lemma indexOf_from_absent l x pos :
  0 <= pos -> (indexOf_from l x pos = -1 <-> x ∉ l).
Proof.
  revert pos. induction l as [|y t IH]; intros pos Hpos; simpl.
  - split; [intros _; apply not_elem_of_nil | done].
  - destruct (Z.eqb_spec y x) as [->|Hne].
    + split; [lia | intros []; left].
    + rewrite IH by lia. rewrite not_elem_of_cons. intuition congruence.
Qed.

(** Where [indexOf] finds [x]: the first position that holds it. *)
Lemma indexOf_from_found l x pos :
  x ∈ l ->
  exists k : nat,
    indexOf_from l x pos = pos + Z.of_nat k /\ l !! k = Some x /\ x ∉ take k l.
Proof.
  revert pos. induction l as [|y t IH]; intros pos Hin; [by apply elem_of_nil in Hin|].
  simpl. destruct (Z.eqb_spec y x) as [->|Hne].
  - exists 0%nat. split; [lia|]. split; [done | apply not_elem_of_nil].
  - apply elem_of_cons in Hin as [?|Hin]; [congruence|].
    destruct (IH (pos + 1) Hin) as (k & Hk & Hl & Ht).
    exists (S k). split; [lia|]. split; [done|].
    simpl. rewrite not_elem_of_cons. split; [congruence | done].
Qed.

Lemma indexOf_absent l x : indexOf l x = -1 <-> x ∉ l.
Proof. by apply indexOf_from_absent. Qed.

Lemma splice1_in_range l (k : nat) :
  (k < length l)%nat -> splice1 l (Z.of_nat k) = delete k l.
Proof.
  intros Hk. unfold splice1.
  destruct (Z.ltb_spec (Z.of_nat k) 0); [lia|].
  f_equal. lia.
Qed.

(** Removing the occurrence [indexOf] found, from an array without
    repetition, removes the element. *)
Lemma delete_first_NoDup l (k : nat) x :
  NoDup l -> l !! k = Some x ->
  NoDup (delete k l) /\
  (list_to_set (delete k l) : gset Z) = list_to_set l ∖ {[ x ]}.
Proof.
  intros Hnd Hk.
  rewrite delete_take_drop.
  pose proof (take_drop_middle l k x Hk) as Hl.
  set (front := take k l) in *. set (back := drop (S k) l) in *.
  rewrite <- Hl in Hnd. rewrite <- Hl.
  apply NoDup_app in Hnd as (Ht & Hmid & Hd).
  apply NoDup_cons in Hd as [Hx Hd].
  assert (x ∉ front) as Hxt.
  { intros Hin. apply (Hmid _ Hin). left. }
  split.
  - apply NoDup_app. split; [done|]. split; [|done].
    intros z Hz Hz'. apply (Hmid _ Hz). by right.
  - rewrite !list_to_set_app_L, list_to_set_cons. set_solver.
Qed.

Lemma push_NoDup l x :
  NoDup l -> x ∉ l ->
  NoDup (push l x) /\ (list_to_set (push l x) : gset Z) = list_to_set l ∪ {[ x ]}.
Proof.
  intros Hnd Hx. unfold push. split.
  - apply NoDup_app. split; [done|]. split; [|apply NoDup_singleton].
    intros z Hz Hz'. apply list_elem_of_singleton in Hz'. by subst.
  - rewrite list_to_set_app_L. set_solver.
Qed.

End ArrayMethods.

(** *** Membership *)

Lemma isChecked_selection (c : Checked) (i : Z) :
  isChecked c i = true <-> i ∈ selection c.
Proof.
  unfold selection. destruct c as [n|l]; simpl.
  - rewrite Z.eqb_eq. set_solver.
  - rewrite negb_true_iff, Z.eqb_neq, elem_of_list_to_set.
    pose proof (indexOf_absent l i) as H.
    destruct (decide (i ∈ l)); intuition.
Qed.

Lemma isChecked_false_selection (c : Checked) (i : Z) :
  isChecked c i = false <-> i ∉ selection c.
Proof.
  rewrite <- isChecked_selection. destruct (isChecked c i); naive_solver.
Qed.

(** *** What a click does, by ownership of the selection *)

Lemma isControlled_checked (p : Props) :
  isControlled p "checked" = bool_decide (is_Some (checked p)).
Proof. reflexivity. Qed.

Lemma current_uncontrolled (p : Props) (s : State) :
  checked p = None -> current (mkInstance p s) = state_checked s.
Proof.
  intros H. unfold current, getControllableValue. simpl.
  rewrite isControlled_checked, H. reflexivity.
Qed.

Lemma current_controlled (p : Props) (s : State) (c : Checked) :
  checked p = Some c -> current (mkInstance p s) = c.
Proof.
  intros H. unfold current, getControllableValue. simpl.
  rewrite isControlled_checked, H. reflexivity.
Qed.

Lemma dispatch_none (p : Props) (s : State) (index : Z) (ev : Event) :
  mode p = None ->
  dispatch (mkInstance p s) index ev =
    (mkInstance p s, clickActions ev (Some false) p s).
Proof.
  intros H. unfold dispatch, handleClick. simpl. rewrite H. simpl.
  by rewrite app_nil_r.
Qed.

Lemma dispatch_controlled (p : Props) (s : State) (index : Z) (ev : Event)
    (m : Mode) (c : Checked) :
  mode p = Some m -> checked p = Some c ->
  dispatch (mkInstance p s) index ev =
    (mkInstance p s, clickActions (persist ev) None p s).
Proof.
  intros Hm Hc. unfold dispatch, handleClick. simpl.
  rewrite Hm, isControlled_checked, Hc. simpl.
  by rewrite app_nil_r.
Qed.

Lemma dispatch_uncontrolled (p : Props) (s : State) (index : Z) (ev : Event)
    (m : Mode) :
  mode p = Some m -> checked p = None ->
  dispatch (mkInstance p s) index ev =
    (mkInstance p (updater m (persist ev) s).1,
     clickActions (persist ev) (Some (updater m (persist ev) s).2) p
       (updater m (persist ev) s).1).
Proof.
  intros Hm Hc. unfold dispatch, handleClick. simpl.
  rewrite Hm, isControlled_checked, Hc. simpl.
  unfold flush, runUpdaters. simpl.
  destruct (updater m (persist ev) s) as [next changed]. simpl.
  by rewrite app_nil_r.
Qed.

Lemma fired_clickActions_onChange (ev : Event) (changed : option bool)
    (p : Props) (s : State) :
  fired OnChange (clickActions ev changed p s) =
    default true changed && bool_decide (is_Some (onChange p)).
Proof.
  unfold clickActions, fired.
  destruct (onClick p), (default true changed), (onChange p); reflexivity.
Qed.

Lemma fired_clickActions_onClick (ev : Event) (changed : option bool)
    (p : Props) (s : State) :
  fired OnClick (clickActions ev changed p s) = bool_decide (is_Some (onClick p)).
Proof.
  unfold clickActions, fired.
  destruct (onClick p), (default true changed), (onChange p); reflexivity.
Qed.

Lemma observed_clickActions (ev : Event) (changed : option bool)
    (p : Props) (s : State) (c : Call) :
  c ∈ clickActions ev changed p s -> observed c = s /\ arg c = ev.
Proof.
  unfold clickActions.
  destruct (onClick p), (default true changed), (onChange p); simpl;
    rewrite ?elem_of_cons, ?elem_of_nil; intros H; intuition (subst; done).
Qed.

(** *** Single-select clicks *)

Lemma selection_empty_toArray (c : Checked) :
  selection c = ∅ -> toArray c = [].
Proof.
  unfold selection. destruct (toArray c) as [|a t]; [done|].
  intros H. exfalso. assert (a ∈ (∅ : gset Z)) as Ha; [|set_solver].
  rewrite <- H. set_solver.
Qed.

Lemma selection_singleton_head (c : Checked) (j : Z) :
  selection c = {[ j ]} -> exists t, toArray c = j :: t.
Proof.
  unfold selection. destruct (toArray c) as [|a t]; simpl.
  - intros H. exfalso. assert (j ∈ (∅ : gset Z)) as Hj; [|set_solver].
    rewrite H. set_solver.
  - intros H. exists t. f_equal.
    assert (a ∈ ({[ j ]} : gset Z)) as Ha; [|set_solver].
    rewrite <- H. set_solver.
Qed.

(** C1. In uncontrolled single-select (radio) mode a click on child [i] makes
    the Selection the singleton of [i]; [changed] is true when the previous
    Selection was empty, and otherwise true exactly when [i] differs from its
    sole member; [onChange] fires exactly when [changed] is true (and the
    callback is supplied). Clicking the selected index therefore leaves the
    Selection as it was, still holding [i], and [onChange] does not fire. *)
Theorem radio_click_selects (p : Props) (s : State) (index : Z) (ev : Event) :
  checked p = None -> mode p = Some radio ->
  let i := data_index ev in
  let prev := state_checked s in
  let changed := (updater radio (persist ev) s).2 in
  let after := dispatch (mkInstance p s) index ev in
  selection (current after.1) = {[ i ]} /\
  (selection prev = ∅ -> changed = true) /\
  (forall j, selection prev = {[ j ]} -> (changed = true <-> i <> j)) /\
  fired OnChange after.2 = changed && bool_decide (is_Some (onChange p)) /\
  (selection prev = {[ i ]} ->
     selection (current after.1) = selection prev /\
     isChecked (current after.1) i = true /\
     fired OnChange after.2 = false).
Proof.
  intros Hc Hm i prev changed after.
  subst after. rewrite (dispatch_uncontrolled p s index ev radio Hm Hc).
  cbn [fst snd]. rewrite current_uncontrolled by done.
  rewrite fired_clickActions_onChange.
  assert (selection (state_checked (updater radio (persist ev) s).1) = {[ i ]}) as Hsel.
  { unfold selection. simpl. set_solver. }
  assert (forall j, selection prev = {[ j ]} -> changed = negb (j =? i)) as Hch.
  { intros j Hj. destruct (selection_singleton_head _ _ Hj) as [t Ht].
    subst changed prev. unfold updater. cbn [snd]. rewrite Ht. reflexivity. }
  split; [exact Hsel|]. split; [|split; [|split; [reflexivity|]]].
  - intros He. apply selection_empty_toArray in He.
    subst changed prev. unfold updater. cbn [snd]. by rewrite He.
  - intros j Hj. rewrite (Hch j Hj), negb_true_iff, Z.eqb_neq.
    split; intros H ?; by apply H.
  - intros Hi. split; [by rewrite Hsel, Hi|]. split.
    + apply isChecked_selection. rewrite Hsel. set_solver.
    + cbn [default]. fold changed. rewrite (Hch i Hi), Z.eqb_refl. reflexivity.
Qed.

Lemma radio_click_selects_witness :
  checked alignText = None /\ mode alignText = Some radio /\
  selection (current (dispatch (mount alignText) 0 (clickOn 0)).1) = {[ 0 ]} /\
  fired OnChange (dispatch (mount alignText) 0 (clickOn 0)).2 = false.
Proof.
  split; [reflexivity|]. split; [reflexivity|].
  pose proof (radio_click_selects alignText (initialState alignText) 0 (clickOn 0)
                eq_refl eq_refl) as (Hsel & _ & _ & _ & Hsame).
  split; [exact Hsel|].
  apply Hsame. reflexivity.
Defined.

(** *** Multi-select clicks *)

(** Scanning the children never lists a position twice. *)
Lemma scan_NoDup (l : list Element) (n : nat) (acc : list Z) :
  NoDup acc -> (forall x, x ∈ acc -> x < Z.of_nat n) ->
  exists r,
    foldl (fun checked '(index, button) =>
             if button_defaultChecked button
             then addDefaultIndex checked index else checked)
          (Indices acc) (imap (fun i b => (Z.of_nat (n + i), b)) l) = Indices r
    /\ NoDup r.
Proof.
  revert n acc. induction l as [|b t IH]; intros n acc Hnd Hlt; simpl.
  - by exists acc.
  - assert (imap ((fun i b0 => (Z.of_nat (n + i), b0)) ∘ S) t
            = imap (fun i b0 => (Z.of_nat (S n + i), b0)) t) as ->.
    { apply imap_ext. intros i x _. simpl. do 2 f_equal. lia. }
    replace (n + 0)%nat with n by lia.
    destruct (button_defaultChecked b); simpl.
    + apply (IH (S n) (push acc (Z.of_nat n))).
      * apply push_NoDup; [done|]. intros Hin. apply Hlt in Hin. lia.
      * intros x Hx. unfold push in Hx. apply elem_of_app in Hx as [Hx|Hx].
        -- apply Hlt in Hx. lia.
        -- apply list_elem_of_singleton in Hx. lia.
    + apply (IH (S n) acc); [done|]. intros x Hx. apply Hlt in Hx. lia.
Qed.

Lemma findDefaultChecked_NoDup (p : Props) :
  exists r, findDefaultChecked p = Indices r /\ NoDup r.
Proof.
  unfold findDefaultChecked.
  destruct (mode p) as [[|]|], (as_array (children p)) as [l|];
    try (exists []; split; [reflexivity | constructor]).
  - apply (scan_NoDup l 0 []); [constructor|]. intros x Hx. by apply elem_of_nil in Hx.
  - destruct (find_from button_defaultChecked l 0) as [[i e]|]; simpl.
    + destruct (negb (i =? -1)); eexists; (split; [reflexivity|]);
        [apply NoDup_singleton | constructor].
    + exists []. split; [reflexivity | constructor].
  - destruct (find_from button_defaultChecked l 0) as [[i e]|]; simpl.
    + destruct (negb (i =? -1)); eexists; (split; [reflexivity|]);
        [apply NoDup_singleton | constructor].
    + exists []. split; [reflexivity | constructor].
Qed.

Lemma initialState_scanned (p : Props) :
  defaultChecked p = None ->
  state_checked (initialState p) = findDefaultChecked p.
Proof.
  intros H. unfold initialState. simpl. rewrite H. simpl.
  destruct (findDefaultChecked_NoDup p) as (r & -> & _). reflexivity.
Qed.

(** The updater in multi-select mode, on an array without repetition. *)
Lemma updater_checkbox_toggle (ev : Event) (s : State) :
  NoDup (toArray (state_checked s)) ->
  let i := data_index ev in
  let next := state_checked (updater checkbox ev s).1 in
  NoDup (toArray next) /\
  selection next =
    (if decide (i ∈ selection (state_checked s))
     then selection (state_checked s) ∖ {[ i ]}
     else selection (state_checked s) ∪ {[ i ]}).
Proof.
  intros Hnd i next. subst i next. unfold updater, selection. simpl.
  set (l := toArray (state_checked s)) in *. set (i := data_index ev).
  destruct (decide (i ∈ (list_to_set l : gset Z))) as [Hin|Hout].
  - apply elem_of_list_to_set in Hin.
    destruct (indexOf_from_found l i 0 Hin) as (k & Hidx & Hk & _).
    fold (indexOf l i) in Hidx. rewrite Hidx.
    replace (0 + Z.of_nat k =? -1) with false by (symmetry; apply Z.eqb_neq; lia).
    simpl. rewrite Z.add_0_l, splice1_in_range by (by eapply lookup_lt_Some).
    by apply delete_first_NoDup.
  - rewrite elem_of_list_to_set in Hout.
    pose proof (proj2 (indexOf_absent l i) Hout) as Hidx. rewrite Hidx.
    simpl. by apply push_NoDup.
Qed.

(** C2 (amended). In uncontrolled multi-select (checkbox) mode, on a
    Selection array that lists no index twice (as the array scanned from the
    children does, and as every click keeps it), a click on child [i]
    toggles the membership of [i] (removed if present, added if absent) and
    changes no other member; [changed] is true on every such click, so
    [onChange] fires whenever the callback is supplied. *)
Theorem checkbox_click_toggles (p : Props) (s : State) (index : Z) (ev : Event) :
  checked p = None -> mode p = Some checkbox ->
  NoDup (toArray (state_checked s)) ->
  let i := data_index ev in
  let prev := state_checked s in
  let after := dispatch (mkInstance p s) index ev in
  selection (current after.1) =
    (if decide (i ∈ selection prev)
     then selection prev ∖ {[ i ]} else selection prev ∪ {[ i ]}) /\
  NoDup (toArray (current after.1)) /\
  (updater checkbox (persist ev) s).2 = true /\
  fired OnChange after.2 = bool_decide (is_Some (onChange p)) /\
  (defaultChecked p = None -> NoDup (toArray (state_checked (initialState p)))).
Proof.
  intros Hc Hm Hnd i prev after. subst after.
  rewrite (dispatch_uncontrolled p s index ev checkbox Hm Hc).
  cbn [fst snd]. rewrite current_uncontrolled by done.
  destruct (updater_checkbox_toggle (persist ev) s Hnd) as [Hnd' Hsel].
  split; [exact Hsel|]. split; [exact Hnd'|]. split; [reflexivity|].
  split; [by rewrite fired_clickActions_onChange|].
  intros Hd. rewrite (initialState_scanned p Hd).
  by destruct (findDefaultChecked_NoDup p) as (r & -> & ?).
Qed.

(** The scenario of the demo group: from no selection, a click on 1 selects
    it and fires [onChange]; a second click clears it and fires again. *)
Lemma checkbox_click_toggles_witness :
  checked formatText = None /\ mode formatText = Some checkbox /\
  NoDup (toArray (state_checked (initialState formatText))) /\
  let once := dispatch (mount formatText) 1 (clickOn 1) in
  let twice := dispatch once.1 1 (clickOn 1) in
  selection (current once.1) = {[ 1 ]} /\ fired OnChange once.2 = true /\
  selection (current twice.1) = ∅ /\ fired OnChange twice.2 = true.
Proof.
  split; [reflexivity|]. split; [reflexivity|].
  assert (NoDup (toArray (state_checked (initialState formatText)))) as H0
    by constructor.
  split; [exact H0|].
  pose proof (checkbox_click_toggles formatText (initialState formatText) 1
                (clickOn 1) eq_refl eq_refl H0) as (H1 & H2 & _ & H3 & _).
  pose proof (checkbox_click_toggles formatText
                (inst_state (dispatch (mount formatText) 1 (clickOn 1)).1) 1
                (clickOn 1) eq_refl eq_refl H2) as (H4 & _ & _ & H5 & _).
  exact (conj H1 (conj H3 (conj H4 H5))).
Defined.

(** C2, as stated, fails on an array that lists an index twice: a click on
    1 removes one occurrence only, and child 1 stays checked. *)
Lemma checkbox_click_repeated_index_stays :
  checked formatTextRepeated = None /\
  mode formatTextRepeated = Some checkbox /\
  1 ∈ selection (current (mount formatTextRepeated)) /\
  state_checked (inst_state (dispatch (mount formatTextRepeated) 1 (clickOn 1)).1)
    = Indices [1] /\
  ~ (1 ∉ selection (current (dispatch (mount formatTextRepeated) 1 (clickOn 1)).1)).
Proof.
  split; [reflexivity|]. split; [reflexivity|].
  split; [by apply isChecked_selection|]. split; [reflexivity|].
  intros H. apply H. by apply isChecked_selection.
Qed.

(** *** Decoration of the children *)

Lemma render_lookup (p : Props) (s : State) (k : nat) (child : Element) :
  toList (children p) !! k = Some child ->
  render p s !! k =
    Some (cloneElement child
            (childConfig p (getControllableValue p s) child (Z.of_nat k))).
Proof.
  intros H. unfold render, Children_map.
  rewrite list_lookup_imap, H. reflexivity.
Qed.

Lemma render_length (p : Props) (s : State) :
  length (render p s) = length (toList (children p)).
Proof. unfold render, Children_map. apply length_imap. Qed.

Lemma childConfig_size (p : Props) (c : Checked) (child : Element) (i : Z) :
  childConfig p c child i !! "size" = Some (of_size (size p)).
Proof.
  unfold childConfig, spread_if, spread.
  destruct (mode p), (isChecked c i), (variant p) as [[]|]; vm_compute; reflexivity.
Qed.

Lemma childConfig_variant (p : Props) (c : Checked) (child : Element) (i : Z) :
  childConfig p c child i !! "variant" =
    (fun v => VStr (variant_str v)) <$> variant p.
Proof.
  unfold childConfig, spread_if, spread.
  destruct (mode p), (isChecked c i), (variant p) as [[]|]; vm_compute; reflexivity.
Qed.

Lemma childConfig_aria_checked (p : Props) (c : Checked) (child : Element) (i : Z) :
  childConfig p c child i !! "aria-checked" =
    (fun _ => VBool (isChecked c i)) <$> mode p.
Proof.
  unfold childConfig, spread_if, spread.
  destruct (mode p), (isChecked c i), (variant p) as [[]|]; vm_compute; reflexivity.
Qed.

Lemma childConfig_data_index (p : Props) (c : Checked) (child : Element) (i : Z) :
  childConfig p c child i !! "data-index" = Some (VNum i).
Proof.
  unfold childConfig, spread_if, spread.
  destruct (mode p), (isChecked c i), (variant p) as [[]|]; vm_compute; reflexivity.
Qed.

(** A prop of the clone: the config's, resolved, when the config has it,
    the element's own otherwise. *)
Lemma cloneElement_lookup (e : Element) (config : gmap string Value) (k : string) :
  k <> "key" ->
  props (cloneElement e config) !! k =
    match config !! k with
    | Some v => Some (resolve (defaultProps e) k v)
    | None => props e !! k
    end.
Proof.
  intros Hk. unfold cloneElement. simpl.
  rewrite lookup_union, map_lookup_imap, lookup_delete_ne by done.
  destruct (config !! k) as [v|]; simpl.
  - by destruct (props e !! k).
  - by destruct (props e !! k).
Qed.

(** C4 (amended). The decorated child takes the group-level variant whenever
    the group sets one, whatever variant the child carries; the child's own
    variant is kept only when the group sets none. The child's own size never
    survives: the decorated size is the group-level size, or the default of
    the child's type when the group sets none. *)
Theorem decorated_variant_and_size (p : Props) (s : State) (k : nat)
    (child : Element) :
  toList (children p) !! k = Some child ->
  exists e, render p s !! k = Some e /\
    get (props e) "variant" =
      match variant p with
      | Some v => VStr (variant_str v)
      | None => get (props child) "variant"
      end /\
    get (props e) "size" =
      match size p with
      | Some sz => VStr (size_str sz)
      | None => get (defaultProps child) "size"
      end.
Proof.
  intros Hk. eexists. split; [by apply render_lookup|].
  unfold get. rewrite !cloneElement_lookup by done.
  rewrite childConfig_variant, childConfig_size.
  split.
  - by destruct (variant p).
  - by destruct (size p).
Qed.

Lemma decorated_variant_and_size_witness :
  toList (children sentimentsSuccess) !! 2%nat
    = Some (button "Unsatisfied" {[ "variant" := VStr "danger" ]}) /\
  exists e,
    render sentimentsSuccess (initialState sentimentsSuccess) !! 2%nat = Some e /\
    get (props e) "variant" = VStr "success" /\
    get (props e) "size" = VUndefined.
Proof.
  split; [reflexivity|].
  destruct (decorated_variant_and_size sentimentsSuccess
              (initialState sentimentsSuccess) 2
              (button "Unsatisfied" {[ "variant" := VStr "danger" ]}) eq_refl)
    as (e & He & Hv & Hs).
  exists e. split; [exact He|]. split; [exact Hv | exact Hs].
Defined.

(** C4, as stated, fails: the third child carries [variant="danger"], the
    group sets [variant="success"], and the decorated child has the group's. *)
Lemma child_variant_is_overridden :
  exists child e,
    toList (children sentimentsSuccess) !! 2%nat = Some child /\
    get (props child) "variant" = VStr "danger" /\
    render sentimentsSuccess (initialState sentimentsSuccess) !! 2%nat = Some e /\
    get (props e) "variant" = VStr "success" /\
    get (props e) "variant" <> get (props child) "variant".
Proof.
  eexists _, _. split; [reflexivity|]. split; [reflexivity|].
  split; [reflexivity|]. split; [vm_compute; reflexivity|].
  vm_compute. discriminate.
Qed.

(** *** The initial Selection *)

(** An explicit default that is truthy (a non-zero index, or any array) is
    the initial Selection, whatever the children say. *)
Lemma initialState_explicit (p : Props) (c : Checked) :
  defaultChecked p = Some c -> truthy_checked c = true ->
  state_checked (initialState p) = c.
Proof. intros H Ht. unfold initialState. simpl. by rewrite H; simpl; rewrite Ht. Qed.

(** C3. The group of the disabled demo asks for [defaultChecked={0}]; [0]
    is falsy, so [||] passes over it and the initial Selection is the empty
    array scanned from the children: no child is checked, where the claim
    has the Selection equal to the supplied index 0. *)
Theorem defaultChecked_zero_is_dropped :
  defaultChecked alignTextDefault0 = Some (Index 0) /\
  state_checked (initialState alignTextDefault0) = Indices [] /\
  selection (current (mount alignTextDefault0)) = ∅ /\
  isChecked (current (mount alignTextDefault0)) 0 = false.
Proof. repeat split. Qed.

(** *** Controlled groups and groups without a mode *)

(** C5. When the [checked] prop is supplied, a click queues no state update
    and leaves the state as it was, and the Selection stays the prop's
    value; with a mode set, [onChange] is called (when supplied) on every
    click, whatever index is clicked and whatever the Selection holds. *)
Theorem controlled_click_notifies (p : Props) (s : State) (index : Z)
    (ev : Event) (c : Checked) :
  checked p = Some c ->
  let after := dispatch (mkInstance p s) index ev in
  (handleClick index ev p s).2 = [] /\
  inst_state after.1 = s /\
  current after.1 = c /\
  (forall m, mode p = Some m ->
     fired OnChange after.2 = bool_decide (is_Some (onChange p)) /\
     forall f, onChange p = Some f -> mkCall OnChange f (persist ev) s ∈ after.2).
Proof.
  intros Hc after. subst after.
  assert ((handleClick index ev p s).2 = []) as Hq.
  { unfold handleClick. destruct (mode p); [|done].
    by rewrite isControlled_checked, Hc. }
  split; [exact Hq|].
  destruct (mode p) as [m|] eqn:Hm.
  - rewrite (dispatch_controlled p s index ev m c Hm Hc). cbn [fst snd].
    split; [done|]. split; [by apply current_controlled|].
    intros _ _. split; [by rewrite fired_clickActions_onChange|].
    intros f Hf. unfold clickActions. rewrite Hf. simpl.
    apply elem_of_app. right. apply list_elem_of_singleton. reflexivity.
  - rewrite (dispatch_none p s index ev Hm). cbn [fst snd].
    split; [done|]. split; [by apply current_controlled|]. intros m; discriminate.
Qed.

Lemma controlled_click_notifies_witness :
  checked alignTextControlled = Some (Index 0) /\
  inst_state (dispatch (mount alignTextControlled) 0 (clickOn 0)).1
    = initialState alignTextControlled /\
  fired OnChange (dispatch (mount alignTextControlled) 0 (clickOn 0)).2 = true.
Proof.
  split; [reflexivity|].
  pose proof (controlled_click_notifies alignTextControlled
                (initialState alignTextControlled) 0 (clickOn 0) (Index 0) eq_refl)
    as (_ & Hs & _ & Hf).
  split; [exact Hs|]. exact (proj1 (Hf radio eq_refl)).
Defined.

(** C6. Without a mode, a click queues no state update, leaves the state as
    it was and never calls [onChange]; the only call made is [onClick]
    (when supplied), with the event. *)
Theorem no_mode_click_only_onClick (p : Props) (s : State) (index : Z)
    (ev : Event) :
  mode p = None ->
  let after := dispatch (mkInstance p s) index ev in
  (handleClick index ev p s).2 = [] /\
  inst_state after.1 = s /\
  fired OnChange after.2 = false /\
  fired OnClick after.2 = bool_decide (is_Some (onClick p)) /\
  after.2 = match onClick p with
            | Some f => [mkCall OnClick f ev s]
            | None => []
            end.
Proof.
  intros Hm after. subst after.
  split; [by unfold handleClick; rewrite Hm|].
  rewrite (dispatch_none p s index ev Hm). cbn [fst snd].
  split; [done|]. split; [by rewrite fired_clickActions_onChange|].
  split; [by rewrite fired_clickActions_onClick|].
  unfold clickActions. simpl. by rewrite app_nil_r.
Qed.

Lemma no_mode_click_only_onClick_witness :
  mode editText = None /\
  inst_state (dispatch (mount editText) 1 (clickOn 1)).1 = initialState editText /\
  fired OnChange (dispatch (mount editText) 1 (clickOn 1)).2 = false /\
  fired OnClick (dispatch (mount editText) 1 (clickOn 1)).2 = true.
Proof.
  split; [reflexivity|].
  pose proof (no_mode_click_only_onClick editText (initialState editText) 1
                (clickOn 1) eq_refl) as (_ & Hs & Hc & Hk & _).
  exact (conj Hs (conj Hc Hk)).
Defined.

(** *** Order of commit and callbacks *)

(** C7. On an uncontrolled click with a mode set, [handleClick] itself calls
    nothing: it queues the update, and the callbacks run once the update is
    committed. [onClick] is called (when supplied), and every call made,
    [onChange] included, observes the state the updater produced, which is
    the state the next render decorates the children from. *)
Theorem uncontrolled_click_commits_first (p : Props) (s : State) (index : Z)
    (ev : Event) (m : Mode) :
  checked p = None -> mode p = Some m ->
  let after := dispatch (mkInstance p s) index ev in
  (handleClick index ev p s).1 = [] /\
  inst_state after.1 = (updater m (persist ev) s).1 /\
  fired OnClick after.2 = bool_decide (is_Some (onClick p)) /\
  (forall c, c ∈ after.2 ->
     observed c = inst_state after.1 /\
     render p (observed c) = render (inst_props after.1) (inst_state after.1)).
Proof.
  intros Hc Hm after. subst after.
  split.
  { unfold handleClick. by rewrite Hm, isControlled_checked, Hc. }
  rewrite (dispatch_uncontrolled p s index ev m Hm Hc). cbn [fst snd].
  split; [done|]. split; [by rewrite fired_clickActions_onClick|].
  intros c Hin. apply observed_clickActions in Hin as [-> _]. done.
Qed.

Lemma uncontrolled_click_commits_first_witness :
  checked alignText = None /\ mode alignText = Some radio /\
  inst_state (dispatch (mount alignText) 2 (clickOn 2)).1 = mkState (Index 2) /\
  forall c, c ∈ (dispatch (mount alignText) 2 (clickOn 2)).2 ->
    observed c = mkState (Index 2).
Proof.
  split; [reflexivity|]. split; [reflexivity|].
  pose proof (uncontrolled_click_commits_first alignText (initialState alignText)
                2 (clickOn 2) radio eq_refl eq_refl) as (_ & Hs & _ & Ho).
  split; [exact Hs|].
  intros c Hin. exact (proj1 (Ho c Hin)).
Defined.

(** *** Cardinality in single-select mode *)

Lemma findDefaultChecked_single (p : Props) :
  mode p <> Some checkbox ->
  findDefaultChecked p = Indices [] \/ exists i, findDefaultChecked p = Indices [i].
Proof.
  intros Hm. unfold findDefaultChecked.
  destruct (mode p) as [[|]|]; [done| |];
    (destruct (as_array (children p)) as [l|]; [|by left];
     destruct (find_from button_defaultChecked l 0) as [[i e]|]; simpl;
     [destruct (negb (i =? -1)); [right; by exists i | by left] | by left]).
Qed.

Lemma size_selection_single (i : Z) : cardinality (Indices [i]) = 1%nat.
Proof.
  unfold cardinality, selection. change (toArray (Indices [i])) with [i].
  rewrite list_to_set_cons, list_to_set_nil, union_empty_r_L.
  apply size_singleton.
Qed.

(** C8 (amended). In single-select mode, a Selection initialised from the
    children, or from a single default index, has cardinality 0 or 1, also
    when several children are default-checked; and every uncontrolled click
    leaves a Selection of cardinality exactly 1, whatever it was before. An
    array given as [defaultChecked] is not covered: it is taken as it is. *)
Theorem radio_selection_at_most_one (p : Props) :
  mode p = Some radio ->
  ((forall l, defaultChecked p <> Some (Indices l)) ->
   (cardinality (state_checked (initialState p)) <= 1)%nat) /\
  (forall (s : State) (index : Z) (ev : Event),
     checked p = None ->
     cardinality (current (dispatch (mkInstance p s) index ev).1) = 1%nat).
Proof.
  intros Hm. split.
  - intros Hd.
    assert (cardinality (findDefaultChecked p) <= 1)%nat as Hscan.
    { destruct (findDefaultChecked_single p) as [->|[i ->]]; [by rewrite Hm| |].
      - unfold cardinality, selection. change (toArray (Indices [])) with (@nil Z).
        rewrite list_to_set_nil, size_empty. lia.
      - by rewrite size_selection_single. }
    unfold initialState. simpl.
    destruct (findDefaultChecked_NoDup p) as (r & Hr & _).
    destruct (defaultChecked p) as [[n|l]|]; simpl.
    + destruct (negb (n =? 0)).
      * change (cardinality (Index n)) with (cardinality (Indices [n])).
        by rewrite size_selection_single.
      * rewrite Hr in Hscan |- *. exact Hscan.
    + by destruct (Hd l).
    + rewrite Hr in Hscan |- *. exact Hscan.
  - intros s index ev Hc.
    rewrite (dispatch_uncontrolled p s index ev radio Hm Hc). cbn [fst].
    rewrite current_uncontrolled by done. simpl.
    exact (size_selection_single (data_index ev)).
Qed.

Lemma radio_selection_at_most_one_witness :
  mode allDefaultChecked = Some radio /\
  (cardinality (state_checked (initialState allDefaultChecked)) <= 1)%nat /\
  cardinality (current (dispatch (mount allDefaultChecked) 2 (clickOn 2)).1)
    = 1%nat.
Proof.
  split; [reflexivity|].
  pose proof (radio_selection_at_most_one allDefaultChecked eq_refl) as [Hi Hc].
  split.
  - apply Hi. intros l. discriminate.
  - exact (Hc (initialState allDefaultChecked) 2 (clickOn 2) eq_refl).
Defined.

(** C8, as stated, fails after initialisation from an array: both indices
    of [defaultChecked={[0, 1]}] are selected in single-select mode. *)
Lemma radio_two_defaults_selected :
  mode alignTextTwoDefaults = Some radio /\
  isChecked (current (mount alignTextTwoDefaults)) 0 = true /\
  isChecked (current (mount alignTextTwoDefaults)) 1 = true /\
  cardinality (current (mount alignTextTwoDefaults)) = 2%nat.
Proof. repeat split. Qed.

(** *** Selection and the current children *)

(** C9 (amended). The Selection is not pruned when the children change: new
    props leave the state, and so the Selection of an uncontrolled group,
    exactly as it was, indices past the last child included. What follows
    the children is the decoration: each child is tagged with its position
    and is checked exactly when that position is in the Selection, so an
    index that addresses no child marks none. *)
Theorem selection_kept_when_children_change (i : Instance) (p' : Props) (m : Mode) :
  checked p' = None -> mode p' = Some m ->
  let i' := receiveProps i p' in
  current i' = state_checked (inst_state i) /\
  length (render (inst_props i') (inst_state i')) = length (toList (children p')) /\
  (forall (k : nat) e,
     render (inst_props i') (inst_state i') !! k = Some e ->
     get (props e) "data-index" = VNum (Z.of_nat k) /\
     get (props e) "aria-checked" = VBool (isChecked (current i') (Z.of_nat k))).
Proof.
  intros Hc Hm i'. subst i'. unfold receiveProps.
  split; [by apply current_uncontrolled|].
  split; [apply render_length|].
  intros k e He. cbn [inst_props inst_state] in He.
  destruct (toList (children p') !! k) as [child|] eqn:Hk.
  - rewrite (render_lookup p' _ k child Hk) in He. injection He as <-.
    unfold get. rewrite !cloneElement_lookup by done.
    rewrite childConfig_data_index, childConfig_aria_checked, Hm. simpl.
    split; [done|]. unfold current. simpl. done.
  - apply lookup_lt_Some in He. rewrite render_length in He.
    apply lookup_ge_None in Hk. lia.
Qed.

Lemma selection_kept_when_children_change_witness :
  checked alignTextShrunk = None /\ mode alignTextShrunk = Some radio /\
  current (receiveProps alignTextRightSelected alignTextShrunk) = Index 2 /\
  length (render alignTextShrunk (inst_state alignTextRightSelected)) = 2%nat.
Proof.
  split; [reflexivity|]. split; [reflexivity|].
  pose proof (selection_kept_when_children_change alignTextRightSelected
                alignTextShrunk radio eq_refl eq_refl) as (Hcur & Hlen & _).
  split; [exact Hcur | exact Hlen].
Defined.

(** C9, as stated, fails: with the third child selected and then removed,
    the Selection still holds index 2, which addresses none of the two
    children left. *)
Lemma stale_index_not_dropped :
  isChecked (current alignTextRightSelected) 2 = true /\
  length (toList (children alignTextShrunk)) = 2%nat /\
  2 ∈ selection (current (receiveProps alignTextRightSelected alignTextShrunk)) /\
  toList (children alignTextShrunk) !! Z.to_nat 2 = None.
Proof.
  split; [reflexivity|]. split; [reflexivity|].
  split; [by apply isChecked_selection | reflexivity].
Qed.

(** *** Scalar and array selections *)

(** C10. A scalar selection and its one-element array decorate alike: for
    every index [i] and number [n], child [i] is checked under [n] iff it is
    checked under [[n]], the test being "[i] equals the scalar" in one case
    and "[i] is an element of the array" in the other; the whole config
    handed to [cloneElement] is the same for both. *)
Theorem isChecked_scalar_singleton (n i : Z) :
  isChecked (Index n) i = isChecked (Indices [n]) i /\
  (isChecked (Index n) i = true <-> i = n) /\
  (forall l, isChecked (Indices l) i = true <-> i ∈ l) /\
  (forall p child,
     childConfig p (Index n) child i = childConfig p (Indices [n]) child i).
Proof.
  assert (isChecked (Index n) i = isChecked (Indices [n]) i) as H.
  { unfold isChecked, indexOf. simpl. by destruct (n =? i). }
  split; [exact H|]. split; [|split].
  - simpl. rewrite Z.eqb_eq. split; congruence.
  - intros l. rewrite isChecked_selection. unfold selection. simpl.
    apply elem_of_list_to_set.
  - intros p child. unfold childConfig. by rewrite H.
Qed.

(* ===================================================================== *)
(** ** Further properties of the component *)
(* ===================================================================== *)

Import Session.

(** *** Scanning the children for default-checked buttons *)

Lemma scan_foldl (l : list Element) (n : nat) (acc : list Z) :
  foldl (fun checked '(index, button) =>
           if button_defaultChecked button
           then addDefaultIndex checked index else checked)
        (Indices acc) (imap (fun i b => (Z.of_nat (n + i), b)) l)
  = Indices (acc ++ defaultPositions l n).
Proof.
  revert n acc. induction l as [|b t IH]; intros n acc; simpl.
  - by rewrite app_nil_r.
  - assert (imap ((fun i b0 => (Z.of_nat (n + i), b0)) ∘ S) t
            = imap (fun i b0 => (Z.of_nat (S n + i), b0)) t) as ->.
    { apply imap_ext. intros i x _. simpl. do 2 f_equal. lia. }
    replace (n + 0)%nat with n by lia.
    destruct (button_defaultChecked b); simpl.
    + etrans; [apply (IH (S n) (push acc (Z.of_nat n)))|]. unfold push.
      by rewrite <- app_assoc.
    + apply (IH (S n) acc).
Qed.

Lemma defaultPositions_elem (l : list Element) (n : nat) (i : Z) :
  i ∈ defaultPositions l n <->
  exists (k : nat) child,
    i = Z.of_nat (n + k) /\ l !! k = Some child /\
    button_defaultChecked child = true.
Proof.
  revert n. induction l as [|b t IH]; intros n; simpl.
  - split; [intros H; by apply elem_of_nil in H | intros (k & c & _ & H & _); done].
  - destruct (button_defaultChecked b) eqn:Hb.
    + rewrite elem_of_cons, IH. split.
      * intros [->|(k & c & -> & Hk & Hc)].
        -- exists 0%nat, b. split; [f_equal; lia | done].
        -- exists (S k), c. split; [f_equal; lia | done].
      * intros (k & c & -> & Hk & Hc). destruct k as [|k].
        -- left. f_equal. lia.
        -- right. exists k, c. split; [f_equal; lia | done].
    + rewrite IH. split.
      * intros (k & c & -> & Hk & Hc).
        exists (S k), c. split; [f_equal; lia | done].
      * intros (k & c & -> & Hk & Hc). destruct k as [|k].
        -- simpl in Hk. injection Hk as <-. congruence.
        -- exists k, c. split; [f_equal; lia | done].
Qed.

Lemma defaultPositions_sorted (l : list Element) (n : nat) :
  StronglySorted Z.lt (defaultPositions l n).
Proof.
  revert n. induction l as [|b t IH]; intros n; simpl; [constructor|].
  destruct (button_defaultChecked b); [|apply IH].
  constructor; [apply IH|].
  apply Forall_forall. intros x Hx.
  apply defaultPositions_elem in Hx as (k & c & -> & _). lia.
Qed.

Section Find.

Context {A : Type} (f : A -> bool).

Lemma find_from_Some (l : list A) (pos i : Z) (a : A) :
  find_from f l pos = Some (i, a) ->
  exists k : nat,
    i = pos + Z.of_nat k /\ l !! k = Some a /\ f a = true /\
    forall (j : nat) b, (j < k)%nat -> l !! j = Some b -> f b = false.
Proof.
  revert pos. induction l as [|x t IH]; intros pos; simpl; [done|].
  destruct (f x) eqn:Hx.
  - intros [= <- <-]. exists 0%nat. split; [lia|]. split; [done|]. split; [done|].
    intros j b Hj. lia.
  - intros H. destruct (IH _ H) as (k & -> & Hk & Ha & Hbefore).
    exists (S k). split; [lia|]. split; [done|]. split; [done|].
    intros [|j] b Hj Hb; simpl in Hb; [congruence|].
    apply (Hbefore j b); [lia | done].
Qed.

Lemma find_from_None (l : list A) (pos : Z) :
  find_from f l pos = None <-> forall b, b ∈ l -> f b = false.
Proof.
  revert pos. induction l as [|x t IH]; intros pos; simpl.
  - split; [intros _ b Hb; by apply elem_of_nil in Hb | done].
  - destruct (f x) eqn:Hx.
    + split; [done|]. intros H. rewrite (H x) in Hx; [done | left].
    + rewrite IH. split.
      * intros H b Hb. apply elem_of_cons in Hb as [->|Hb]; [done | by apply H].
      * intros H b Hb. apply H. by right.
Qed.

End Find.

Lemma findDefaultChecked_checkbox_eq (p : Props) (l : list Element) :
  mode p = Some checkbox -> children p = ChildArray l ->
  findDefaultChecked p = Indices (defaultPositions l 0).
Proof.
  intros Hm Hc. unfold findDefaultChecked. rewrite Hm, Hc. simpl.
  apply (scan_foldl l 0 []).
Qed.

Lemma findDefaultChecked_other_eq (p : Props) (l : list Element) :
  mode p <> Some checkbox -> children p = ChildArray l ->
  findDefaultChecked p =
    match find_from button_defaultChecked l 0 with
    | Some (i, _) => Indices [i]
    | None => Indices []
    end.
Proof.
  intros Hm Hc. unfold findDefaultChecked. rewrite Hc.
  destruct (mode p) as [[|]|]; [done| |]; simpl;
    (destruct (find_from button_defaultChecked l 0) as [[i a]|] eqn:Hf; [|done];
     apply find_from_Some in Hf as (k & -> & _);
     by replace (0 + Z.of_nat k =? -1) with false
       by (symmetry; apply Z.eqb_neq; lia)).
Qed.

(** X1. In checkbox mode, with an array of children, the scan returns the
    positions of the default-checked children and nothing else, in
    ascending order (so no position twice). *)
Theorem findDefaultChecked_checkbox_positions (p : Props) (l : list Element) :
  mode p = Some checkbox -> children p = ChildArray l ->
  exists r, findDefaultChecked p = Indices r /\
    StronglySorted Z.lt r /\
    forall i, i ∈ r <->
      exists (k : nat) child,
        i = Z.of_nat k /\ l !! k = Some child /\
        button_defaultChecked child = true.
Proof.
  intros Hm Hc. exists (defaultPositions l 0).
  split; [|split].
  - by apply findDefaultChecked_checkbox_eq.
  - apply defaultPositions_sorted.
  - intros i. apply defaultPositions_elem.
Qed.

Lemma findDefaultChecked_checkbox_positions_witness :
  mode formatText = Some checkbox /\
  (exists l, children formatText = ChildArray l) /\
  exists r, findDefaultChecked formatText = Indices r /\ StronglySorted Z.lt r.
Proof.
  split; [reflexivity|]. split; [eexists; reflexivity|].
  destruct (findDefaultChecked_checkbox_positions formatText _ eq_refl eq_refl)
    as (r & Hr & Hs & _).
  exists r. split; [exact Hr | exact Hs].
Defined.

(** X2. Outside checkbox mode (radio, or no mode), with an array of
    children, the scan returns the position of the first default-checked
    child alone, however many are marked, and the empty array exactly when
    no child is marked. *)
Theorem findDefaultChecked_first_only (p : Props) (l : list Element) :
  mode p <> Some checkbox -> children p = ChildArray l ->
  (findDefaultChecked p = Indices [] <->
     forall b, b ∈ l -> button_defaultChecked b = false) /\
  (forall i, findDefaultChecked p = Indices [i] <->
     exists (k : nat) child,
       i = Z.of_nat k /\ l !! k = Some child /\
       button_defaultChecked child = true /\
       forall (j : nat) b, (j < k)%nat -> l !! j = Some b ->
                           button_defaultChecked b = false).
Proof.
  intros Hm Hc.
  rewrite (findDefaultChecked_other_eq p l Hm Hc).
  destruct (find_from button_defaultChecked l 0) as [[i a]|] eqn:Hf.
  - pose proof (find_from_Some _ _ _ _ _ Hf) as (k & -> & Hk & Ha & Hbefore).
    split.
    + split; [done|]. intros Hnone. rewrite (Hnone a) in Ha; [done|].
      by eapply list_elem_of_lookup_2.
    + intros i. split.
      * intros [= <-]. exists k, a. split; [lia | done].
      * intros (k' & c & -> & Hk' & Hc' & Hbefore'). do 2 f_equal.
        destruct (Nat.lt_trichotomy k k') as [Hlt|[->|Hlt]]; [|lia|].
        -- rewrite (Hbefore' k a Hlt Hk) in Ha. done.
        -- rewrite (Hbefore k' c Hlt Hk') in Hc'. done.
  - pose proof (proj1 (find_from_None _ _ _) Hf) as Hnone. split.
    + split; [done | reflexivity].
    + intros i. split; [done|].
      intros (k & c & _ & Hk & Hc' & _).
      rewrite (Hnone c) in Hc'; [done|]. by eapply list_elem_of_lookup_2.
Qed.

Lemma findDefaultChecked_first_only_witness :
  mode allDefaultChecked <> Some checkbox /\
  (exists l, children allDefaultChecked = ChildArray l) /\
  findDefaultChecked allDefaultChecked = Indices [0].
Proof.
  split; [discriminate|]. split; [eexists; reflexivity|].
  apply (proj2 (findDefaultChecked_first_only allDefaultChecked _
                  ltac:(discriminate) eq_refl)).
  exists 0%nat, (button "Left" {[ "defaultChecked" := VBool true ]}).
  split; [reflexivity|]. split; [reflexivity|]. split; [reflexivity|].
  intros j b Hj. lia.
Defined.

(** X3. Whatever the mode, every index the scan returns is the position of a
    child that is marked [defaultChecked]; and when [children] is not an
    array (a sole child, or none) the scan returns the empty array, also
    when that sole child is marked. *)
Theorem findDefaultChecked_valid (p : Props) :
  (forall i, i ∈ toArray (findDefaultChecked p) ->
     exists (k : nat) child,
       i = Z.of_nat k /\ toList (children p) !! k = Some child /\
       button_defaultChecked child = true) /\
  (as_array (children p) = None -> findDefaultChecked p = Indices []).
Proof.
  split.
  - intros i.
    destruct (children p) as [|e|l] eqn:Hc;
      try (unfold findDefaultChecked; rewrite Hc;
           destruct (mode p) as [[|]|]; simpl; intros H; by apply elem_of_nil in H).
    assert (mode p = Some checkbox \/ mode p <> Some checkbox) as [Hm|Hm]
      by (destruct (mode p) as [[|]|]; [by left | by right..]).
    + rewrite (findDefaultChecked_checkbox_eq p l Hm Hc). simpl.
      apply defaultPositions_elem.
    + rewrite (findDefaultChecked_other_eq p l Hm Hc).
      destruct (find_from button_defaultChecked l 0) as [[j a]|] eqn:Hf; simpl;
        [|intros H; by apply elem_of_nil in H].
      apply find_from_Some in Hf as (k & -> & Hk & Ha & _).
      intros H. apply list_elem_of_singleton in H as ->.
      exists k, a. split; [lia | done].
  - intros Hn. unfold findDefaultChecked. rewrite Hn.
    by destruct (mode p) as [[|]|].
Qed.

Lemma findDefaultChecked_valid_witness :
  0 ∈ toArray (findDefaultChecked alignText) /\
  (exists (k : nat) child,
     0 = Z.of_nat k /\ toList (children alignText) !! k = Some child /\
     button_defaultChecked child = true) /\
  as_array (children soleChild) = None /\
  findDefaultChecked soleChild = Indices [].
Proof.
  assert (0 ∈ toArray (findDefaultChecked alignText)) as H by (vm_compute; left).
  split; [exact H|]. split.
  - exact (proj1 (findDefaultChecked_valid alignText) 0 H).
  - split; [reflexivity|].
    exact (proj2 (findDefaultChecked_valid soleChild) eq_refl).
Defined.

(** X4. The fallback [-1] of the state initialiser is never taken: the scan
    always yields an array, which is truthy, so the initial Selection is the
    explicit default when that is truthy and the scanned array otherwise.
    The initial Selection is [-1] only if the caller passed [-1]. *)
Theorem initialState_never_fallback (p : Props) :
  state_checked (initialState p)
    = or_checked (defaultChecked p) (findDefaultChecked p) /\
  (state_checked (initialState p) = Index (-1) ->
   defaultChecked p = Some (Index (-1))).
Proof.
  destruct (findDefaultChecked_NoDup p) as (r & Hr & _).
  unfold initialState. simpl. rewrite Hr. simpl.
  split; [done|].
  destruct (defaultChecked p) as [[n|l]|]; simpl; [|done..].
  destruct (negb (n =? 0)); [congruence | done].
Qed.

Lemma initialState_never_fallback_witness :
  state_checked (initialState (group (Some radio) (Some (Index (-1))) [])) = Index (-1) /\
  defaultChecked (group (Some radio) (Some (Index (-1))) []) = Some (Index (-1)).
Proof.
  split; [reflexivity|].
  exact (proj2 (initialState_never_fallback
                  (group (Some radio) (Some (Index (-1))) [])) eq_refl).
Defined.

(** *** One multi-select click, on the array *)

(** X5. The checkbox updater, on any array (repetitions included): an index
    the array lacks is appended at the end; an index it holds has its first
    occurrence removed, the rest keeping its order. Either way the array
    changes length by one. *)
Theorem checkbox_click_array (ev : Event) (s : State) :
  let i := data_index ev in
  let prev := toArray (state_checked s) in
  let next := toArray (state_checked (updater checkbox ev s).1) in
  (i ∉ prev -> next = prev ++ [i]) /\
  (i ∈ prev ->
   exists front back,
     prev = front ++ (i :: back) /\ (i ∉ front) /\ next = front ++ back).
Proof.
  intros i prev next. subst next. unfold updater. simpl. fold prev. fold i.
  split.
  - intros Hout. rewrite (proj2 (indexOf_absent prev i) Hout). reflexivity.
  - intros Hin.
    destruct (indexOf_from_found prev i 0 Hin) as (k & Hidx & Hk & Hfront).
    fold (indexOf prev i) in Hidx. rewrite Hidx.
    replace (0 + Z.of_nat k =? -1) with false by (symmetry; apply Z.eqb_neq; lia).
    simpl. rewrite Z.add_0_l, splice1_in_range by (by eapply lookup_lt_Some).
    exists (take k prev), (drop (S k) prev).
    split; [symmetry; by apply take_drop_middle|].
    split; [done | apply delete_take_drop].
Qed.

Lemma checkbox_click_array_witness :
  2 ∈ toArray (Indices [1; 2; 3; 2]) /\
  (4 ∉ toArray (Indices [1; 2; 3; 2])) /\
  (toArray (state_checked (updater checkbox (clickAt 4) (mkState (Indices [1; 2; 3; 2]))).1)
     = [1; 2; 3; 2; 4]) /\
  exists front back,
    [1; 2; 3; 2] = front ++ (2 :: back) /\ (2 ∉ front) /\
    toArray (state_checked (updater checkbox (clickAt 2) (mkState (Indices [1; 2; 3; 2]))).1)
      = front ++ back.
Proof.
  assert (2 ∈ toArray (Indices [1; 2; 3; 2])) as Hin by (right; left).
  assert (4 ∉ toArray (Indices [1; 2; 3; 2])) as Hout.
  { simpl. rewrite !not_elem_of_cons. repeat split; try lia. apply not_elem_of_nil. }
  split; [exact Hin|]. split; [exact Hout|]. split.
  - exact (proj1 (checkbox_click_array (clickAt 4) (mkState (Indices [1; 2; 3; 2]))) Hout).
  - exact (proj2 (checkbox_click_array (clickAt 2) (mkState (Indices [1; 2; 3; 2]))) Hin).
Defined.

(** *** Sequences of clicks *)

Lemma dispatch_props (i : Instance) (index : Z) (ev : Event) :
  inst_props (dispatch i index ev).1 = inst_props i.
Proof.
  unfold dispatch.
  destruct (handleClick index ev (inst_props i) (inst_state i)) as [now us].
  destruct (flush (inst_props i) (inst_state i) us) as [s' later].
  reflexivity.
Qed.

Lemma clicks_props (i : Instance) (l : list Z) :
  inst_props (clicks i l) = inst_props i.
Proof.
  revert i. induction l as [|k t IH]; intros i; [done|].
  unfold clicks in *. simpl. rewrite IH. apply dispatch_props.
Qed.

Lemma clicks_snoc (i : Instance) (l : list Z) (k : Z) :
  clicks i (l ++ [k]) = (dispatch (clicks i l) k (clickAt k)).1.
Proof. unfold clicks. by rewrite foldl_app. Qed.

Lemma isChecked_decide (c : Checked) (k : Z) :
  isChecked c k = bool_decide (k ∈ selection c).
Proof.
  destruct (isChecked c k) eqn:E; symmetry.
  - apply bool_decide_eq_true. by apply isChecked_selection.
  - apply bool_decide_eq_false. by apply isChecked_false_selection.
Qed.

(** One checkbox click flips the clicked index and no other. *)
Lemma updater_checkbox_flip (ev : Event) (s : State) (k : Z) :
  NoDup (toArray (state_checked s)) ->
  isChecked (state_checked (updater checkbox ev s).1) k
    = xorb (isChecked (state_checked s) k) (bool_decide (data_index ev = k)).
Proof.
  intros Hnd.
  destruct (updater_checkbox_toggle ev s Hnd) as [_ Hsel]. cbv zeta in Hsel.
  rewrite !isChecked_decide, Hsel.
  destruct (decide (data_index ev ∈ selection (state_checked s)));
    repeat case_bool_decide; simpl; try done; set_solver.
Qed.

(** The state after a run of checkbox clicks: no index twice, and each
    index flipped once per click on it. *)
Lemma clicks_checkbox_flips (p : Props) (l : list Z) (s : State) (k : Z) :
  checked p = None -> mode p = Some checkbox ->
  NoDup (toArray (state_checked s)) ->
  NoDup (toArray (state_checked (inst_state (clicks (mkInstance p s) l)))) /\
  isChecked (state_checked (inst_state (clicks (mkInstance p s) l))) k
    = xorb (isChecked (state_checked s) k)
           (Nat.odd (length (filter (fun x => x = k) l))).
Proof.
  intros Hc Hm. revert s. induction l as [|a t IH]; intros s Hnd.
  - simpl. split; [done|]. by rewrite xorb_false_r.
  - unfold clicks in *. cbn [foldl].
    rewrite (dispatch_uncontrolled p s a (clickAt a) checkbox Hm Hc). cbn [fst].
    destruct (updater_checkbox_toggle (persist (clickAt a)) s Hnd) as [Hnd' _].
    destruct (IH _ Hnd') as [Hnd'' Hflip].
    split; [exact Hnd''|]. rewrite Hflip.
    rewrite (updater_checkbox_flip _ s k Hnd). cbn [persist clickAt data_index].
    rewrite filter_cons, xorb_assoc. f_equal.
    destruct (decide (a = k)) as [->|Hne].
    + rewrite bool_decide_eq_true_2 by done. cbn [length].
      rewrite Nat.odd_succ, <- Nat.negb_odd. reflexivity.
    + by rewrite bool_decide_eq_false_2 by done.
Qed.

(** X6. After any run of uncontrolled checkbox clicks, starting from an
    array without repetition, a child is checked iff it was checked at the
    start and clicked an even number of times, or unchecked at the start and
    clicked an odd number of times. *)
Theorem checkbox_clicks_parity (p : Props) (s : State) (l : list Z) (k : Z) :
  checked p = None -> mode p = Some checkbox ->
  NoDup (toArray (state_checked s)) ->
  isChecked (current (clicks (mkInstance p s) l)) k
    = xorb (isChecked (state_checked s) k)
           (Nat.odd (length (filter (fun x => x = k) l))).
Proof.
  intros Hc Hm Hnd.
  destruct (clicks_checkbox_flips p l s k Hc Hm Hnd) as [_ H].
  unfold current, getControllableValue.
  rewrite clicks_props. cbn [inst_props].
  rewrite isControlled_checked, Hc. exact H.
Qed.

Lemma checkbox_clicks_parity_witness :
  checked formatText = None /\ mode formatText = Some checkbox /\
  NoDup (toArray (state_checked (initialState formatText))) /\
  isChecked (current (clicks (mount formatText) [2; 0; 2; 2])) 2 = true /\
  isChecked (current (clicks (mount formatText) [2; 0; 2; 0])) 0 = false.
Proof.
  split; [reflexivity|]. split; [reflexivity|].
  assert (NoDup (toArray (state_checked (initialState formatText)))) as H0
    by constructor.
  split; [exact H0|]. split.
  - exact (checkbox_clicks_parity formatText (initialState formatText)
             [2; 0; 2; 2] 2 eq_refl eq_refl H0).
  - exact (checkbox_clicks_parity formatText (initialState formatText)
             [2; 0; 2; 0] 0 eq_refl eq_refl H0).
Defined.



(** X8. After a run of uncontrolled radio clicks the Selection is the index
    clicked last, whatever the state was before and whatever was clicked
    in between. *)
Theorem radio_clicks_last (p : Props) (s : State) (l : list Z) (k : Z) :
  checked p = None -> mode p = Some radio ->
  current (clicks (mkInstance p s) (l ++ [k])) = Index k.
Proof.
  intros Hc Hm. rewrite clicks_snoc.
  pose proof (clicks_props (mkInstance p s) l) as Hp. cbn [inst_props] in Hp.
  destruct (clicks (mkInstance p s) l) as [p' s']. cbn [inst_props] in Hp. subst p'.
  rewrite (dispatch_uncontrolled p s' k (clickAt k) radio Hm Hc). cbn [fst].
  by rewrite current_uncontrolled.
Qed.

Lemma radio_clicks_last_witness :
  checked alignText = None /\ mode alignText = Some radio /\
  current (clicks (mount alignText) ([2; 0; 0] ++ [1])) = Index 1.
Proof.
  split; [reflexivity|]. split; [reflexivity|].
  exact (radio_clicks_last alignText (initialState alignText) [2; 0; 0] 1
           eq_refl eq_refl).
Defined.

(** *** The calls of one click *)

(** Every click ends in one run of [clickActions], on some event carrying
    the clicked index and on the state the click leaves. *)
Lemma dispatch_log (i : Instance) (index : Z) (ev : Event) :
  exists (e : Event) (changed : bool),
    (dispatch i index ev).2
      = clickActions e (Some changed) (inst_props i) (inst_state (dispatch i index ev).1)
    /\ data_index e = data_index ev
    /\ e = match mode (inst_props i) with
           | Some _ => persist ev
           | None => ev
           end.
Proof.
  destruct i as [p s]. cbn [inst_props].
  destruct (mode p) as [m|] eqn:Hm.
  - destruct (checked p) as [c|] eqn:Hc.
    + rewrite (dispatch_controlled p s index ev m c Hm Hc). cbn [fst snd].
      by exists (persist ev), true.
    + rewrite (dispatch_uncontrolled p s index ev m Hm Hc). cbn [fst snd].
      by exists (persist ev), (updater m (persist ev) s).2.
  - rewrite (dispatch_none p s index ev Hm). cbn [fst snd].
    by exists ev, false.
Qed.

(** X9. With [onClick] supplied, every click, in every mode and whether the
    selection is controlled or not, calls [onClick] first and once; it is
    followed by at most one call, of the supplied [onChange], made with the
    same event and observing the same state. *)
Theorem click_calls_in_order (i : Instance) (index : Z) (ev : Event) (f : nat) :
  onClick (inst_props i) = Some f ->
  exists c rest,
    (dispatch i index ev).2 = c :: rest /\
    which c = OnClick /\ callee c = f /\
    data_index (arg c) = data_index ev /\
    (rest = [] \/
     exists c', rest = [c'] /\ which c' = OnChange /\
       onChange (inst_props i) = Some (callee c') /\
       arg c' = arg c /\ observed c' = observed c).
Proof.
  intros Hf.
  destruct (dispatch_log i index ev) as (e & changed & -> & He & _).
  unfold clickActions. rewrite Hf. cbn [default].
  eexists _, _. split; [reflexivity|]. cbn.
  split; [done|]. split; [done|]. split; [done|].
  destruct changed; [|by left].
  destruct (onChange (inst_props i)) as [g|]; [|by left].
  right. eexists. split; [reflexivity|]. by cbn.
Qed.

Lemma click_calls_in_order_witness :
  onClick (inst_props (mount editText)) = Some 2%nat /\
  exists c rest,
    (dispatch (mount editText) 0 (clickAt 0)).2 = c :: rest /\
    which c = OnClick /\ callee c = 2%nat.
Proof.
  split; [reflexivity|].
  destruct (click_calls_in_order (mount editText) 0 (clickAt 0) 2 eq_refl)
    as (c & rest & Hlog & Hw & Hc & _).
  exists c, rest. split; [exact Hlog|]. split; [exact Hw | exact Hc].
Defined.



(** *** Decoration, prop by prop *)

Lemma childConfig_disabled (p : Props) (c : Checked) (child : Element) (i : Z) :
  childConfig p c child i !! "disabled" =
    Some (or (of_bool (disabled p)) (get (props child) "disabled")).
Proof.
  unfold childConfig, spread_if, spread.
  destruct (mode p), (isChecked c i), (variant p) as [[]|]; vm_compute; reflexivity.
Qed.

Lemma childConfig_primary (p : Props) (c : Checked) (child : Element) (i : Z) :
  childConfig p c child i !! "primary" =
    match mode p with
    | Some _ => if isChecked c i then Some (VBool true) else None
    | None => None
    end.
Proof.
  unfold childConfig, spread_if, spread.
  destruct (mode p), (isChecked c i), (variant p) as [[]|]; vm_compute; reflexivity.
Qed.

Lemma childConfig_role (p : Props) (c : Checked) (child : Element) (i : Z) :
  childConfig p c child i !! "role" = (fun m => VStr (mode_str m)) <$> mode p.
Proof.
  unfold childConfig, spread_if, spread.
  destruct (mode p) as [[]|], (isChecked c i), (variant p) as [[]|];
    vm_compute; reflexivity.
Qed.


Lemma childConfig_other (p : Props) (c : Checked) (child : Element) (i : Z)
    (k : string) :
  k ∉ configKeys -> childConfig p c child i !! k = None.
Proof.
  intros Hk. unfold configKeys in Hk. rewrite !not_elem_of_cons in Hk.
  destruct Hk as (? & ? & ? & ? & ? & ? & ? & ? & ? & _).
  unfold childConfig, spread_if, spread. cbn [foldl].
  destruct (match mode p with Some _ => true | None => false end && true),
           (isChecked c i), (truthy (of_variant (variant p))); cbn [andb];
    repeat (apply lookup_union_None_2);
    first [ apply lookup_empty | by apply lookup_singleton_ne ].
Qed.

Lemma cloneElement_get (e : Element) (config : gmap string Value) (k : string) :
  k <> "key" ->
  get (props (cloneElement e config)) k =
    match config !! k with
    | Some v => resolve (defaultProps e) k v
    | None => get (props e) k
    end.
Proof.
  intros Hk. unfold get. rewrite cloneElement_lookup by done.
  by destruct (config !! k).
Qed.

(** X11. A disabled group disables every child, whatever the child's own
    flag says ([disabled={false}] included); a group that is not disabled
    leaves each child its own flag (the default of its type when it has
    none). *)
Theorem decorated_disabled (p : Props) (s : State) (k : nat) (child : Element) :
  toList (children p) !! k = Some child ->
  exists e, render p s !! k = Some e /\
    (disabled p = Some true -> get (props e) "disabled" = VBool true) /\
    (disabled p <> Some true ->
     get (props e) "disabled"
       = resolve (defaultProps child) "disabled" (get (props child) "disabled")).
Proof.
  intros Hk. eexists. split; [by apply render_lookup|].
  rewrite cloneElement_get by done.
  rewrite childConfig_disabled.
  split.
  - intros ->. reflexivity.
  - intros Hd. destruct (disabled p) as [[|]|]; [done | reflexivity..].
Qed.

Lemma decorated_disabled_witness :
  toList (children alignTextDefault0) !! 2%nat
    = Some (button "Right" {[ "disabled" := VBool true ]}) /\
  disabled alignTextDefault0 <> Some true /\
  exists e,
    render alignTextDefault0 (initialState alignTextDefault0) !! 2%nat = Some e /\
    get (props e) "disabled" = VBool true.
Proof.
  split; [reflexivity|]. split; [discriminate|].
  destruct (decorated_disabled alignTextDefault0 (initialState alignTextDefault0) 2
              (button "Right" {[ "disabled" := VBool true ]}) eq_refl)
    as (e & He & _ & Hd).
  exists e. split; [exact He|].
  rewrite (Hd ltac:(discriminate)). vm_compute. reflexivity.
Defined.

(** X12. Without a mode, [render] adds no toggle attribute: each child's
    [aria-checked], [role] and [primary] are its own, and the decoration
    depends neither on the state nor on a [checked] prop. *)
Theorem no_mode_render_plain (p : Props) (s s' : State) (c : option Checked) :
  mode p = None ->
  render p s =
    render (mkProps c (children p) (defaultChecked p) (disabled p) (mode p)
              (onChange p) (onClick p) (size p) (variant p)) s' /\
  forall (k : nat) e child,
    render p s !! k = Some e -> toList (children p) !! k = Some child ->
    props e !! "aria-checked" = props child !! "aria-checked" /\
    props e !! "role" = props child !! "role" /\
    props e !! "primary" = props child !! "primary".
Proof.
  intros Hm. split.
  - unfold render, Children_map. cbn [children]. apply imap_ext.
    intros i x _. cbn beta. f_equal.
    unfold childConfig. cbn [mode disabled size variant]. rewrite Hm. reflexivity.
  - intros k e child He Hk.
    rewrite (render_lookup p s k child Hk) in He. injection He as <-.
    rewrite !cloneElement_lookup by done.
    by rewrite childConfig_aria_checked, childConfig_role, childConfig_primary, Hm.
Qed.

Lemma no_mode_render_plain_witness :
  mode editText = None /\
  render editText (mkState (Index 1)) = render editText (initialState editText).
Proof.
  split; [reflexivity|].
  exact (proj1 (no_mode_render_plain editText (mkState (Index 1))
                  (initialState editText) None eq_refl)).
Defined.

(** X13. With a mode set, every child gets the mode as its [role]; a checked
    child is made [primary]; an unchecked child is not given
    [primary={false}] but keeps whatever [primary] it came with. *)
Theorem toggleable_render_role_primary (p : Props) (s : State) (m : Mode)
    (k : nat) (child : Element) :
  mode p = Some m -> toList (children p) !! k = Some child ->
  exists e, render p s !! k = Some e /\
    get (props e) "role" = VStr (mode_str m) /\
    (isChecked (getControllableValue p s) (Z.of_nat k) = true ->
     get (props e) "primary" = VBool true) /\
    (isChecked (getControllableValue p s) (Z.of_nat k) = false ->
     props e !! "primary" = props child !! "primary").
Proof.
  intros Hm Hk. eexists. split; [by apply render_lookup|].
  rewrite !cloneElement_get, cloneElement_lookup by done.
  rewrite childConfig_role, childConfig_primary, Hm. cbn [fmap option_fmap option_map].
  split; [by destruct m|].
  split; intros ->; reflexivity.
Qed.

Lemma toggleable_render_role_primary_witness :
  mode alignText = Some radio /\
  toList (children alignText) !! 0%nat
    = Some (button "Left" {[ "defaultChecked" := VBool true ]}) /\
  isChecked (getControllableValue alignText (initialState alignText)) 0 = true /\
  exists e,
    render alignText (initialState alignText) !! 0%nat = Some e /\
    get (props e) "role" = VStr "radio" /\ get (props e) "primary" = VBool true.
Proof.
  split; [reflexivity|]. split; [reflexivity|]. split; [reflexivity|].
  destruct (toggleable_render_role_primary alignText (initialState alignText) radio 0
              (button "Left" {[ "defaultChecked" := VBool true ]}) eq_refl eq_refl)
    as (e & He & Hr & Hp & _).
  exists e. split; [exact He|]. split; [exact Hr | exact (Hp eq_refl)].
Defined.

(** X14. [render] yields one clone per child, in order, and touches only the
    nine props of its config: every other prop of a child (its label, its
    icons, its [defaultChecked]) and the defaults of its type are carried
    over unchanged. *)
Theorem render_passes_other_props (p : Props) (s : State) (k : nat)
    (child : Element) (name : string) :
  toList (children p) !! k = Some child -> name ∉ configKeys ->
  length (render p s) = length (toList (children p)) /\
  exists e, render p s !! k = Some e /\
    props e !! name = props child !! name /\
    defaultProps e = defaultProps child.
Proof.
  intros Hk Hname. split; [apply render_length|].
  eexists. split; [by apply render_lookup|].
  split; [|reflexivity].
  assert (name <> "key") as Hkey.
  { intros ->. apply Hname. unfold configKeys. do 3 right. left. }
  rewrite cloneElement_lookup by done.
  by rewrite childConfig_other.
Qed.

Lemma render_passes_other_props_witness :
  toList (children alignText) !! 0%nat
    = Some (button "Left" {[ "defaultChecked" := VBool true ]}) /\
  ("children" ∉ configKeys) /\
  exists e,
    render alignText (initialState alignText) !! 0%nat = Some e /\
    props e !! "children" = Some (VStr "Left").
Proof.
  split; [reflexivity|].
  assert ("children" ∉ configKeys) as Hn.
  { unfold configKeys. rewrite !not_elem_of_cons.
    repeat split; try discriminate. apply not_elem_of_nil. }
  split; [exact Hn|].
  destruct (render_passes_other_props alignText (initialState alignText) 0
              (button "Left" {[ "defaultChecked" := VBool true ]}) "children"
              eq_refl Hn) as (_ & e & He & Hp & _).
  exists e. split; [exact He|]. rewrite Hp. vm_compute. reflexivity.
Defined.

(** *** A click, then the next render *)

Lemma render_aria_checked (p : Props) (s : State) (m : Mode) (k : nat) (e : Element) :
  mode p = Some m -> render p s !! k = Some e ->
  get (props e) "aria-checked"
    = VBool (isChecked (getControllableValue p s) (Z.of_nat k)).
Proof.
  intros Hm He.
  destruct (toList (children p) !! k) as [child|] eqn:Hk.
  - rewrite (render_lookup p s k child Hk) in He. injection He as <-.
    rewrite cloneElement_get by done.
    by rewrite childConfig_aria_checked, Hm.
  - apply lookup_lt_Some in He. rewrite render_length in He.
    apply lookup_ge_None in Hk. lia.
Qed.

(** X15. After an uncontrolled radio click on the child at position [i], the
    next render marks that child, and no other, as checked: a child at
    position [k] gets [aria-checked] true iff [k = i]. *)
Theorem radio_click_then_render (p : Props) (s : State) (index : Z) (ev : Event)
    (k : nat) (e : Element) :
  checked p = None -> mode p = Some radio ->
  render (inst_props (dispatch (mkInstance p s) index ev).1)
         (inst_state (dispatch (mkInstance p s) index ev).1) !! k = Some e ->
  get (props e) "aria-checked" = VBool (bool_decide (Z.of_nat k = data_index ev)).
Proof.
  intros Hc Hm.
  rewrite (dispatch_uncontrolled p s index ev radio Hm Hc). cbn [fst inst_props inst_state].
  intros He. rewrite (render_aria_checked p _ radio k e Hm He).
  unfold getControllableValue. rewrite isControlled_checked, Hc.
  cbn. f_equal. destruct (Z.eqb_spec (data_index ev) (Z.of_nat k)).
  - by rewrite bool_decide_eq_true_2.
  - by rewrite bool_decide_eq_false_2.
Qed.

Lemma radio_click_then_render_witness :
  checked alignText = None /\ mode alignText = Some radio /\
  exists e0 e2,
    render alignText (inst_state (dispatch (mount alignText) 2 (clickAt 2)).1) !! 0%nat
      = Some e0 /\
    render alignText (inst_state (dispatch (mount alignText) 2 (clickAt 2)).1) !! 2%nat
      = Some e2 /\
    get (props e0) "aria-checked" = VBool false /\
    get (props e2) "aria-checked" = VBool true.
Proof.
  split; [reflexivity|]. split; [reflexivity|].
  eexists _, _. split; [reflexivity|]. split; [reflexivity|]. split.
  - exact (radio_click_then_render alignText (initialState alignText) 2 (clickAt 2)
             0 _ eq_refl eq_refl eq_refl).
  - exact (radio_click_then_render alignText (initialState alignText) 2 (clickAt 2)
             2 _ eq_refl eq_refl eq_refl).
Defined.

(** X16. After an uncontrolled checkbox click on the child at position [i]
    (the Selection array listing no index twice), the next render flips the
    [aria-checked] of that child and leaves every other child as the
    previous render had it. *)
Theorem checkbox_click_then_render (p : Props) (s : State) (index : Z)
    (ev : Event) (k : nat) (before after : Element) :
  checked p = None -> mode p = Some checkbox ->
  NoDup (toArray (state_checked s)) ->
  render p s !! k = Some before ->
  render (inst_props (dispatch (mkInstance p s) index ev).1)
         (inst_state (dispatch (mkInstance p s) index ev).1) !! k = Some after ->
  exists b,
    get (props before) "aria-checked" = VBool b /\
    get (props after) "aria-checked"
      = VBool (xorb b (bool_decide (data_index ev = Z.of_nat k))).
Proof.
  intros Hc Hm Hnd Hb.
  rewrite (dispatch_uncontrolled p s index ev checkbox Hm Hc).
  cbn [fst inst_props inst_state]. intros Ha.
  rewrite (render_aria_checked p _ checkbox k _ Hm Hb).
  rewrite (render_aria_checked p _ checkbox k _ Hm Ha).
  eexists. split; [reflexivity|]. f_equal.
  unfold getControllableValue. rewrite isControlled_checked, Hc. cbn [bool_decide].
  change (isChecked (state_checked (updater checkbox (persist ev) s).1) (Z.of_nat k)
          = xorb (isChecked (state_checked s) (Z.of_nat k))
                 (bool_decide (data_index ev = Z.of_nat k))).
  exact (updater_checkbox_flip (persist ev) s (Z.of_nat k) Hnd).
Qed.

Lemma checkbox_click_then_render_witness :
  checked formatText = None /\ mode formatText = Some checkbox /\
  NoDup (toArray (state_checked (initialState formatText))) /\
  exists before after b,
    render formatText (initialState formatText) !! 1%nat = Some before /\
    render formatText (inst_state (dispatch (mount formatText) 1 (clickAt 1)).1) !! 1%nat
      = Some after /\
    get (props before) "aria-checked" = VBool b /\
    get (props after) "aria-checked" = VBool (xorb b true).
Proof.
  split; [reflexivity|]. split; [reflexivity|].
  assert (NoDup (toArray (state_checked (initialState formatText)))) as H0
    by constructor.
  split; [exact H0|].
  eexists _, _.
  destruct (checkbox_click_then_render formatText (initialState formatText) 1
              (clickAt 1) 1 _ _ eq_refl eq_refl H0 eq_refl eq_refl)
    as (b & Hb & Ha).
  exists b. split; [reflexivity|]. split; [reflexivity|].
  split; [exact Hb | exact Ha].
Defined.

(** X17. In a controlled group the decoration does not depend on the
    internal state, so a click, whatever it is, leaves the next render as
    the previous one: the children look frozen until the caller passes a new
    [checked]. *)
Theorem controlled_render_frozen (p : Props) (s s' : State) (c : Checked)
    (index : Z) (ev : Event) :
  checked p = Some c ->
  render p s = render p s' /\
  render (inst_props (dispatch (mkInstance p s) index ev).1)
         (inst_state (dispatch (mkInstance p s) index ev).1) = render p s.
Proof.
  intros Hc.
  assert (forall t t', render p t = render p t') as Hfree.
  { intros t t'. unfold render, getControllableValue.
    by rewrite isControlled_checked, Hc. }
  split; [apply Hfree|].
  pose proof (dispatch_props (mkInstance p s) index ev) as Hp.
  cbn [inst_props] in Hp. rewrite Hp. apply Hfree.
Qed.

Lemma controlled_render_frozen_witness :
  checked alignTextControlled = Some (Index 0) /\
  render alignTextControlled
    (inst_state (dispatch (mount alignTextControlled) 2 (clickAt 2)).1)
  = render alignTextControlled (initialState alignTextControlled).
Proof.
  split; [reflexivity|].
  exact (proj2 (controlled_render_frozen alignTextControlled
                  (initialState alignTextControlled)
                  (initialState alignTextControlled) (Index 0) 2 (clickAt 2)
                  eq_refl)).
Defined.



(* ===================================================================== *)
(** ** Properties of the theme and the styles *)
(* ===================================================================== *)

Section ThemeProperties.

Import Theme.

Implicit Types (baseTheme : gmap string Token) (k : string).

Lemma defaults_lookup baseTheme k :
  k ∈ variables -> is_Some (defaults baseTheme !! k).
Proof.
  unfold variables. rewrite !elem_of_cons, elem_of_nil.
  intros [->|[->|[->|[->|[->|[]]]]]]; unfold defaults;
    repeat (first [ rewrite lookup_insert_eq; by eexists
                  | rewrite lookup_insert_ne by done ]).
Qed.

Lemma defaults_lookup_other baseTheme k :
  k ∉ variables -> defaults baseTheme !! k = None.
Proof.
  unfold variables. rewrite !not_elem_of_cons.
  intros (? & ? & ? & ? & ? & _). unfold defaults.
  by rewrite !lookup_insert_ne, lookup_empty by done.
Qed.

Lemma dom_defaults baseTheme :
  dom (defaults baseTheme) = list_to_set variables.
Proof.
  apply set_eq. intros k. rewrite elem_of_dom, elem_of_list_to_set.
  split.
  - intros Hs. destruct (decide (k ∈ variables)) as [|Hn]; [done|].
    rewrite (defaults_lookup_other _ _ Hn) in Hs. by destruct Hs.
  - apply defaults_lookup.
Qed.

(** X19. [componentTheme] is idempotent: applied to a theme it already
    produced, it returns that theme unchanged, so passing a component theme
    where a base theme is expected is harmless. *)
Theorem componentTheme_idempotent baseTheme :
  componentTheme (componentTheme baseTheme) = componentTheme baseTheme.
Proof.
  unfold componentTheme at 1. apply map_eq. intros k.
  rewrite lookup_union.
  destruct (componentTheme baseTheme !! k) as [v|] eqn:Hk.
  - by destruct (defaults (componentTheme baseTheme) !! k).
  - destruct (decide (k ∈ variables)) as [Hin|Hout].
    + exfalso. destruct (defaults_lookup baseTheme k Hin) as [v Hv].
      unfold componentTheme in Hk. rewrite lookup_union, Hv in Hk.
      by destruct (baseTheme !! k).
    + by rewrite defaults_lookup_other.
Qed.

(** X20. Every own property of the base theme survives in the component
    theme with its value, the five component variables included (a base
    theme overrides them, even with [undefined]); the component theme adds
    exactly the five variables; and a variable the base theme does not set
    is derived from it: the start border colour is its [borderColor], the
    disabled border is ["solid 1px "] followed by that colour. *)
Theorem componentTheme_base_wins baseTheme :
  (forall k v, baseTheme !! k = Some v -> componentTheme baseTheme !! k = Some v) /\
  dom (componentTheme baseTheme) = dom baseTheme ∪ list_to_set variables /\
  (baseTheme !! "ButtonGroupButton_borderStartColor" = None ->
   read (componentTheme baseTheme) "ButtonGroupButton_borderStartColor"
     = read baseTheme "borderColor") /\
  (baseTheme !! "ButtonGroupButton_border_disabled" = None ->
   read (componentTheme baseTheme) "ButtonGroupButton_border_disabled"
     = TStr ("solid 1px " +:+ toString (read baseTheme "borderColor"))).
Proof.
  split; [|split; [|split]].
  - intros k v Hk. unfold componentTheme. by apply lookup_union_Some_l.
  - unfold componentTheme. by rewrite dom_union_L, dom_defaults.
  - intros Hn. unfold read at 1, componentTheme.
    rewrite lookup_union_r by done. reflexivity.
  - intros Hn. unfold read at 1, componentTheme.
    rewrite lookup_union_r by done. reflexivity.
Qed.

Lemma componentTheme_base_wins_witness :
  (∅ : gmap string Token) !! "ButtonGroupButton_borderStartColor" = None /\
  read (componentTheme ∅) "ButtonGroupButton_borderStartColor" = TUndefined /\
  componentTheme {[ "ButtonGroupButton_borderStartColor" := TStr "red" ]}
    !! "ButtonGroupButton_borderStartColor" = Some (TStr "red").
Proof.
  split; [reflexivity|]. split.
  - exact (proj1 (proj2 (proj2 (componentTheme_base_wins ∅))) eq_refl).
  - exact (proj1 (componentTheme_base_wins
                    {[ "ButtonGroupButton_borderStartColor" := TStr "red" ]})
             "ButtonGroupButton_borderStartColor" (TStr "red") eq_refl).
Defined.

Lemma read_componentTheme_direction baseTheme (d : Token) :
  read (componentTheme (<[ "direction" := d ]> baseTheme)) "direction" = d.
Proof.
  unfold read, componentTheme.
  by rewrite (lookup_union_Some_l _ _ _ d) by apply lookup_insert_eq.
Qed.

Lemma read_componentTheme_variable baseTheme (d : Token) k :
  k ∈ variables ->
  read (componentTheme (<[ "direction" := d ]> baseTheme)) k
    = read (componentTheme baseTheme) k.
Proof.
  intros Hk. unfold read, componentTheme. rewrite !lookup_union.
  assert (k <> "direction") as Hne.
  { intros ->. revert Hk. unfold variables.
    rewrite !elem_of_cons, elem_of_nil. intros [?|[?|[?|[?|[?|[]]]]]]; discriminate. }
  rewrite lookup_insert_ne by done.
  assert (defaults (<[ "direction" := d ]> baseTheme) = defaults baseTheme) as ->;
    [|done].
  unfold defaults, read. by rewrite !lookup_insert_ne by done.
Qed.

Ltac direction_free d baseTheme :=
  unfold styles; cbv zeta;
  rewrite !(read_componentTheme_direction baseTheme d);
  rewrite !(read_componentTheme_variable baseTheme d)
    by (unfold variables; rewrite !elem_of_cons; tauto).

(** X21. The styles of a vertical group do not depend on the text direction
    of the theme: right-to-left and left-to-right themes that are otherwise
    equal give the same style object. *)
Theorem styles_vertical_direction_free (fullWidth vertical d d' : Token)
    baseTheme :
  truthy vertical = true ->
  styles fullWidth (<[ "direction" := d ]> baseTheme) vertical
    = styles fullWidth (<[ "direction" := d' ]> baseTheme) vertical.
Proof.
  intros Hv.
  direction_free d baseTheme. direction_free d' baseTheme.
  rewrite Hv. rewrite !andb_false_r. reflexivity.
Qed.

Lemma styles_vertical_direction_free_witness :
  truthy (TBool true) = true /\
  styles TUndefined (<[ "direction" := TStr "rtl" ]> ∅) (TBool true)
    = styles TUndefined (<[ "direction" := TStr "ltr" ]> ∅) (TBool true).
Proof.
  split; [reflexivity|].
  exact (styles_vertical_direction_free TUndefined (TBool true) (TStr "rtl")
           (TStr "ltr") ∅ eq_refl).
Defined.

(** X22. The styles of a right-to-left theme are the mirror image of those
    of the same theme read left-to-right: exchanging left and right in every
    property name of the one gives the other, for horizontal and vertical
    groups alike. *)
Theorem styles_rtl_mirror (fullWidth vertical d : Token) baseTheme :
  d <> TStr "rtl" ->
  mirror (styles fullWidth (<[ "direction" := d ]> baseTheme) vertical)
    = styles fullWidth (<[ "direction" := TStr "rtl" ]> baseTheme) vertical.
Proof.
  intros Hd.
  direction_free d baseTheme. direction_free (TStr "rtl") baseTheme.
  assert (match d with TStr s => String.eqb s "rtl" | _ => false end = false) as ->.
  { destruct d as [| | |s]; try done.
    apply String.eqb_neq. congruence. }
  generalize (read (componentTheme baseTheme) "ButtonGroupButton_border_disabled").
  generalize (read (componentTheme baseTheme)
                "ButtonGroupButton_backgroundColor_checkedDisabled").
  generalize (read (componentTheme baseTheme) "ButtonGroupButton_color_checkedDisabled").
  generalize (read (componentTheme baseTheme) "ButtonGroupButton_borderStartColor").
  generalize (read (componentTheme baseTheme)
                "ButtonGroupButton_borderStartColor_checked").
  generalize (and fullWidth (TNum 1)).
  intros grow startChecked start colorDisabled bgDisabled border.
  destruct (truthy vertical); vm_compute; reflexivity.
Qed.

Lemma styles_rtl_mirror_witness :
  TStr "ltr" <> TStr "rtl" /\
  mirror (styles (TBool true) (<[ "direction" := TStr "ltr" ]> ∅) TUndefined)
    = styles (TBool true) (<[ "direction" := TStr "rtl" ]> ∅) TUndefined.
Proof.
  split; [discriminate|].
  exact (styles_rtl_mirror (TBool true) TUndefined (TStr "ltr") ∅
           ltac:(discriminate)).
Defined.

Lemma read_componentTheme baseTheme k :
  read (componentTheme baseTheme) k =
    match baseTheme !! k with
    | Some t => t
    | None => read (defaults baseTheme) k
    end.
Proof.
  unfold read, componentTheme. rewrite lookup_union.
  destruct (baseTheme !! k), (defaults baseTheme !! k); reflexivity.
Qed.

(** X23. What the styles take from their arguments: the group is a flex
    column when [vertical] is truthy and a flex row otherwise; its buttons
    grow by 1 when [fullWidth] is truthy; and a disabled button's border is
    the theme's own [ButtonGroupButton_border_disabled] when the theme sets
    one, ["solid 1px "] and the theme's [borderColor] otherwise. *)
Theorem styles_layout (fullWidth vertical : Token) baseTheme :
  at_path (styles fullWidth baseTheme vertical) ["flexDirection"]
    = Some (Prim (TStr (if truthy vertical then "column" else "row"))) /\
  at_path (styles fullWidth baseTheme vertical) ["& button"; "flexGrow"]
    = Some (Prim (if truthy fullWidth then TNum 1 else fullWidth)) /\
  at_path (styles fullWidth baseTheme vertical) ["& button"; "&[disabled]"; "border"]
    = Some (Prim match baseTheme !! "ButtonGroupButton_border_disabled" with
                 | Some t => t
                 | None => TStr ("solid 1px " +:+ toString (read baseTheme "borderColor"))
                 end).
Proof.
  assert (read (componentTheme baseTheme) "ButtonGroupButton_border_disabled"
          = match baseTheme !! "ButtonGroupButton_border_disabled" with
            | Some t => t
            | None => TStr ("solid 1px " +:+ toString (read baseTheme "borderColor"))
            end) as <- by apply read_componentTheme.
  unfold styles. cbv zeta.
  generalize (read (componentTheme baseTheme) "ButtonGroupButton_border_disabled").
  generalize (read (componentTheme baseTheme)
                "ButtonGroupButton_backgroundColor_checkedDisabled").
  generalize (read (componentTheme baseTheme) "ButtonGroupButton_color_checkedDisabled").
  generalize (read (componentTheme baseTheme) "ButtonGroupButton_borderStartColor").
  generalize (read (componentTheme baseTheme)
                "ButtonGroupButton_borderStartColor_checked").
  generalize (read (componentTheme baseTheme) "direction").
  intros direction startChecked start colorDisabled bgDisabled border.
  unfold and.
  destruct (truthy vertical), (truthy fullWidth),
    (match direction with TStr s => String.eqb s "rtl" | _ => false end);
    vm_compute; repeat split.
Qed.

End ThemeProperties.

(* ===================================================================== *)
(** ** Properties of Radio and Checkbox *)
(* ===================================================================== *)

Section ChoiceProperties.

Import Choice.

Implicit Types (props : gmap string PV) (k : string).

Lemma with_default_defined (v dflt : PV) :
  is_undefined dflt = false -> is_undefined (with_default v dflt) = false.
Proof. intros Hd. unfold with_default. by destruct (is_undefined v) eqn:E. Qed.

Lemma getp_Some props k (v : PV) : props !! k = Some v -> getp props k = v.
Proof. intros H. unfold getp. by rewrite H. Qed.

Lemma rest_lookup props (keys : list string) k :
  rest props keys !! k = if decide (k ∈ keys) then None else props !! k.
Proof.
  unfold rest. induction keys as [|a t IH]; cbn [foldr].
  - by rewrite decide_False by apply not_elem_of_nil.
  - destruct (decide (a = k)) as [->|Hne].
    + rewrite lookup_delete_eq. rewrite decide_True; [done | left].
    + rewrite lookup_delete_ne by done. rewrite IH.
      destruct (decide (k ∈ t)).
      * rewrite decide_True; [done | by right].
      * rewrite decide_False; [done|].
        rewrite not_elem_of_cons. split; [congruence | done].
Qed.

(** X24. [Radio] and [Checkbox] never hand an undefined [size] or
    [controlPosition] to their root: a value the caller defines is passed
    as it is, and ["large"] and ["start"] stand in when the prop is absent
    or passed as [undefined]. *)
Theorem choice_defaults props :
  (Radio props !! "size"
     = Some (with_default (getp props "size") (Plain (VStr "large"))) /\
   Radio props !! "controlPosition"
     = Some (with_default (getp props "controlPosition") (Plain (VStr "start"))) /\
   is_undefined (getp (Radio props) "size") = false /\
   is_undefined (getp (Radio props) "controlPosition") = false) /\
  (Checkbox props !! "size"
     = Some (with_default (getp props "size") (Plain (VStr "large"))) /\
   Checkbox props !! "controlPosition"
     = Some (with_default (getp props "controlPosition") (Plain (VStr "start"))) /\
   is_undefined (getp (Checkbox props) "size") = false /\
   is_undefined (getp (Checkbox props) "controlPosition") = false).
Proof.
  assert (Radio props !! "size"
          = Some (with_default (getp props "size") (Plain (VStr "large")))) as R1.
  { unfold Radio. cbv zeta. rewrite lookup_union_r by (by rewrite rest_lookup).
    reflexivity. }
  assert (Radio props !! "controlPosition"
          = Some (with_default (getp props "controlPosition") (Plain (VStr "start"))))
    as R2.
  { unfold Radio. cbv zeta. rewrite lookup_union_r by (by rewrite rest_lookup).
    reflexivity. }
  assert (Checkbox props !! "size"
          = Some (with_default (getp props "size") (Plain (VStr "large")))) as C1.
  { unfold Checkbox. cbv zeta. rewrite lookup_union_r by (by rewrite rest_lookup).
    reflexivity. }
  assert (Checkbox props !! "controlPosition"
          = Some (with_default (getp props "controlPosition") (Plain (VStr "start"))))
    as C2.
  { unfold Checkbox. cbv zeta. rewrite lookup_union_r by (by rewrite rest_lookup).
    reflexivity. }
  rewrite (getp_Some _ _ _ R1), (getp_Some _ _ _ R2),
    (getp_Some _ _ _ C1), (getp_Some _ _ _ C2).
  repeat split; try done; by apply with_default_defined.
Qed.

Lemma Radio_lookup_rest props k :
  k ∉ ["className"; "controlPosition"; "inputRef"; "rootProps"; "size"] ->
  is_Some (props !! k) -> Radio props !! k = props !! k.
Proof.
  intros Hk [v Hv]. unfold Radio. cbv zeta.
  rewrite Hv. apply lookup_union_Some_l.
  rewrite rest_lookup. by rewrite decide_False.
Qed.

Lemma Checkbox_lookup_rest props k :
  k ∉ ["className"; "controlPosition"; "indeterminate"; "inputRef";
       "rootProps"; "size"] ->
  is_Some (props !! k) -> Checkbox props !! k = props !! k.
Proof.
  intros Hk [v Hv]. unfold Checkbox. cbv zeta.
  rewrite Hv. apply lookup_union_Some_l.
  rewrite rest_lookup. by rewrite decide_False.
Qed.

Lemma Radio_lookup_literal props k :
  props !! k = None ->
  Radio props !! k =
    (list_to_map
       [ ("controlPosition",
           with_default (getp props "controlPosition") (Plain (VStr "start")));
         ("iconChecked", Elem "IconRadioButtonCheck");
         ("inputRef", RadioRef (getp props "inputRef"));
         ("rootProps",
           Obj (own (getp props "rootProps") ∪ {[ "className" := getp props "className" ]}));
         ("size", with_default (getp props "size") (Plain (VStr "large")));
         ("type", Plain (VStr "radio")) ] : gmap string PV) !! k.
Proof.
  intros Hn. unfold Radio. cbv zeta. apply lookup_union_r.
  rewrite rest_lookup. by destruct (decide _).
Qed.

Lemma Checkbox_lookup_literal props k :
  props !! k = None ->
  Checkbox props !! k =
    (list_to_map
       [ ("controlPosition",
           with_default (getp props "controlPosition") (Plain (VStr "start")));
         ("iconChecked",
           if truthyPV (getp props "indeterminate")
           then Elem "IconCheckBoxIndeterminate" else Elem "IconCheckBoxCheck");
         ("inputRef", CheckboxRef (getp props "indeterminate") (getp props "inputRef"));
         ("rootProps",
           Obj (own (getp props "rootProps") ∪ {[ "className" := getp props "className" ]}));
         ("size", with_default (getp props "size") (Plain (VStr "large")));
         ("type", Plain (VStr "checkbox")) ] : gmap string PV) !! k.
Proof.
  intros Hn. unfold Checkbox. cbv zeta. apply lookup_union_r.
  rewrite rest_lookup. by destruct (decide _).
Qed.

(** X25. Every prop the components do not name in their destructuring is
    handed on as the caller gave it, and wins over what the component sets:
    a caller's [type] replaces ["radio"] or ["checkbox"], which are set only
    when the caller passes no [type]. *)
Theorem choice_rest_props_win props k (v : PV) :
  props !! k = Some v ->
  (k ∉ ["className"; "controlPosition"; "inputRef"; "rootProps"; "size"] ->
   Radio props !! k = Some v) /\
  (k ∉ ["className"; "controlPosition"; "indeterminate"; "inputRef";
        "rootProps"; "size"] ->
   Checkbox props !! k = Some v) /\
  (forall other, other !! "type" = None ->
     Radio other !! "type" = Some (Plain (VStr "radio")) /\
     Checkbox other !! "type" = Some (Plain (VStr "checkbox"))).
Proof.
  intros Hv. split; [|split].
  - intros Hk. rewrite <- Hv. apply Radio_lookup_rest; [done | by eexists].
  - intros Hk. rewrite <- Hv. apply Checkbox_lookup_rest; [done | by eexists].
  - intros other Hn. split.
    + by rewrite (Radio_lookup_literal other "type" Hn).
    + by rewrite (Checkbox_lookup_literal other "type" Hn).
Qed.

Lemma choice_rest_props_win_witness :
  typedRadio !! "type" = Some (Plain (VStr "hidden")) /\
  Radio typedRadio !! "type" = Some (Plain (VStr "hidden")) /\
  Radio ∅ !! "type" = Some (Plain (VStr "radio")).
Proof.
  split; [reflexivity|].
  destruct (choice_rest_props_win typedRadio "type"
              (Plain (VStr "hidden")) eq_refl) as (Hr & _ & Ht).
  split.
  - apply Hr. rewrite !not_elem_of_cons. repeat split; try discriminate.
    apply not_elem_of_nil.
  - exact (proj1 (Ht ∅ eq_refl)).
Defined.

(** X26. [className] is never handed to the input: it goes into the
    [rootProps] object, where a [className] of the caller's own [rootProps]
    replaces it; the other properties of the caller's [rootProps] are kept. *)
Theorem choice_className_routing props :
  Radio props !! "className" = None /\
  Checkbox props !! "className" = None /\
  exists o,
    Radio props !! "rootProps" = Some (Obj o) /\
    Checkbox props !! "rootProps" = Some (Obj o) /\
    o !! "className"
      = Some (match own (getp props "rootProps") !! "className" with
              | Some c => c
              | None => getp props "className"
              end) /\
    forall k, k <> "className" -> o !! k = own (getp props "rootProps") !! k.
Proof.
  assert (forall keys, "className" ∈ keys -> rest props keys !! "className" = None)
    as Hrest.
  { intros keys Hin. rewrite rest_lookup. by rewrite decide_True. }
  split; [|split].
  - unfold Radio. cbv zeta. apply lookup_union_None_2; [apply Hrest; left | reflexivity].
  - unfold Checkbox. cbv zeta.
    apply lookup_union_None_2; [apply Hrest; left | reflexivity].
  - exists (own (getp props "rootProps") ∪ {[ "className" := getp props "className" ]}).
    split; [|split; [|split]].
    + unfold Radio. cbv zeta. rewrite lookup_union_r; [reflexivity|].
      rewrite rest_lookup. rewrite decide_True; [done | do 3 right; left].
    + unfold Checkbox. cbv zeta. rewrite lookup_union_r; [reflexivity|].
      rewrite rest_lookup. rewrite decide_True; [done | do 4 right; left].
    + rewrite lookup_union.
      destruct (own (getp props "rootProps") !! "className");
        by rewrite lookup_singleton_eq.
    + intros k Hk. rewrite lookup_union, lookup_singleton_ne by done.
      by destruct (own (getp props "rootProps") !! k).
Qed.

(** X27. [Checkbox] consumes [indeterminate]: the prop is not handed on;
    it picks the icon (unless the caller passes an [iconChecked] of its
    own), and the function installed as [inputRef] writes it, as a boolean,
    to the input element before the caller's [inputRef] is called, so the
    caller sees the flag already set. With [null] (on unmount) nothing is
    written and the caller's function is still called; without a caller's
    function the flag is written all the same. *)
Theorem checkbox_indeterminate props (node : Input) :
  props !! "iconChecked" = None ->
  let flag := truthyPV (getp props "indeterminate") in
  let installed := getp (Checkbox props) "inputRef" in
  Checkbox props !! "indeterminate" = None /\
  Checkbox props !! "iconChecked"
    = Some (Elem (if flag then "IconCheckBoxIndeterminate" else "IconCheckBoxCheck")) /\
  (forall f, getp props "inputRef" = Plain (VFun f) ->
     callRef installed (Some node)
       = Some (Some (mkInput flag), [(f, Some (mkInput flag))]) /\
     callRef installed None = Some (None, [(f, None)])) /\
  (truthyPV (getp props "inputRef") = false ->
   callRef installed (Some node) = Some (Some (mkInput flag), []) /\
   callRef installed None = Some (None, [])).
Proof.
  intros Hicon flag installed.
  assert (installed
          = CheckboxRef (getp props "indeterminate") (getp props "inputRef")) as ->.
  { subst installed. apply getp_Some. unfold Checkbox. cbv zeta.
    rewrite lookup_union_r; [reflexivity|].
    rewrite rest_lookup. rewrite decide_True; [done | do 3 right; left]. }
  split; [|split; [|split]].
  - unfold Checkbox. cbv zeta. apply lookup_union_None_2; [|reflexivity].
    rewrite rest_lookup. rewrite decide_True; [done | do 2 right; left].
  - rewrite (Checkbox_lookup_literal props "iconChecked" Hicon).
    subst flag. by destruct (truthyPV (getp props "indeterminate")).
  - intros f Hf. unfold callRef, forward. rewrite Hf. by cbn.
  - intros Hf. unfold callRef, forward. rewrite Hf. by cbn.
Qed.

Lemma checkbox_indeterminate_witness :
  indeterminateBox !! "iconChecked" = None /\
  Checkbox indeterminateBox !! "iconChecked"
    = Some (Elem "IconCheckBoxIndeterminate") /\
  callRef (getp (Checkbox indeterminateBox) "inputRef") (Some (mkInput false))
    = Some (Some (mkInput true), [(7%nat, Some (mkInput true))]).
Proof.
  split; [reflexivity|].
  destruct (checkbox_indeterminate indeterminateBox (mkInput false) eq_refl)
    as (_ & Hi & Hf & _).
  split; [exact Hi|].
  exact (proj1 (Hf 7%nat eq_refl)).
Defined.

(** X28. The function [Radio] installs as [inputRef] hands the ref on
    untouched to the caller's [inputRef], node or [null] alike, and does
    nothing when the caller passes none. *)
Theorem radio_inputRef_forwards props (ref : option Input) :
  let installed := getp (Radio props) "inputRef" in
  (forall f, getp props "inputRef" = Plain (VFun f) ->
     callRef installed ref = Some (ref, [(f, ref)])) /\
  (truthyPV (getp props "inputRef") = false ->
   callRef installed ref = Some (ref, [])).
Proof.
  intros installed.
  assert (installed = RadioRef (getp props "inputRef")) as ->.
  { subst installed. apply getp_Some. unfold Radio. cbv zeta.
    rewrite lookup_union_r; [reflexivity|].
    rewrite rest_lookup. rewrite decide_True; [done | do 2 right; left]. }
  split.
  - intros f Hf. unfold callRef, forward. rewrite Hf. by cbn.
  - intros Hf. unfold callRef, forward. rewrite Hf. by cbn.
Qed.

Lemma radio_inputRef_forwards_witness :
  getp refRadio "inputRef" = Plain (VFun 3) /\
  callRef (getp (Radio refRadio) "inputRef") None = Some (None, [(3%nat, None)]).
Proof.
  split; [reflexivity|].
  exact (proj1 (radio_inputRef_forwards refRadio None) 3%nat eq_refl).
Defined.

End ChoiceProperties.

(* ===================================================================== *)
(** ** Edges of the initial Selection and of [changed] *)
(* ===================================================================== *)

(** X29. In radio mode [changed] looks at the first entry of the previous
    array only: when the clicked index is that first entry, [onChange] is
    not called, although every other index the array held, such as the
    second of [defaultChecked={[0, 1]}], stops being checked. *)
Theorem radio_click_first_of_many (p : Props) (s : State) (index : Z)
    (ev : Event) (others : list Z) :
  checked p = None -> mode p = Some radio ->
  toArray (state_checked s) = data_index ev :: others ->
  fired OnChange (dispatch (mkInstance p s) index ev).2 = false /\
  selection (current (dispatch (mkInstance p s) index ev).1) = {[ data_index ev ]} /\
  forall j, j ∈ others -> j <> data_index ev ->
    isChecked (state_checked s) j = true /\
    isChecked (current (dispatch (mkInstance p s) index ev).1) j = false.
Proof.
  intros Hc Hm Hprev.
  rewrite (dispatch_uncontrolled p s index ev radio Hm Hc). cbn [fst snd].
  rewrite current_uncontrolled by done.
  rewrite fired_clickActions_onChange.
  assert ((updater radio (persist ev) s).2 = false) as Hch.
  { unfold updater. cbn [snd]. rewrite Hprev. cbn [persist data_index].
    by rewrite Z.eqb_refl. }
  split; [by rewrite Hch|]. split.
  - unfold selection. cbn. set_solver.
  - intros j Hj Hne. split.
    + apply isChecked_selection. unfold selection. rewrite Hprev.
      rewrite list_to_set_cons. set_solver.
    + cbn. apply Z.eqb_neq. congruence.
Qed.

Lemma radio_click_first_of_many_witness :
  checked alignTextTwoDefaults = None /\ mode alignTextTwoDefaults = Some radio /\
  toArray (state_checked (initialState alignTextTwoDefaults)) = 0 :: [1] /\
  fired OnChange (dispatch (mount alignTextTwoDefaults) 0 (clickAt 0)).2 = false /\
  isChecked (state_checked (initialState alignTextTwoDefaults)) 1 = true /\
  isChecked (current (dispatch (mount alignTextTwoDefaults) 0 (clickAt 0)).1) 1 = false.
Proof.
  split; [reflexivity|]. split; [reflexivity|]. split; [reflexivity|].
  destruct (radio_click_first_of_many alignTextTwoDefaults
              (initialState alignTextTwoDefaults) 0 (clickAt 0) [1]
              eq_refl eq_refl eq_refl) as (Hf & _ & Hj).
  split; [exact Hf|].
  apply (Hj 1); [left | discriminate].
Defined.

(** X30. An explicit default that is truthy is the initial Selection
    whatever the children are marked with: a non-zero index, or any array.
    The empty array is truthy too, so [defaultChecked={[]}] starts the group
    with nothing checked even when children are marked [defaultChecked]. *)
Theorem explicit_default_overrides_children (p : Props) (c : Checked) :
  defaultChecked p = Some c -> truthy_checked c = true ->
  state_checked (initialState p) = c /\
  (checked p = None -> forall i, isChecked (current (mount p)) i = isChecked c i) /\
  (c = Indices [] -> checked p = None ->
   forall i, isChecked (current (mount p)) i = false).
Proof.
  intros Hd Ht.
  assert (state_checked (initialState p) = c) as Hs.
  { unfold initialState. cbn. by rewrite Hd; cbn; rewrite Ht. }
  split; [exact Hs|]. split.
  - intros Hc i. unfold mount. rewrite current_uncontrolled by done. by rewrite Hs.
  - intros -> Hc i. unfold mount. rewrite current_uncontrolled by done. by rewrite Hs.
Qed.

Lemma explicit_default_overrides_children_witness :
  defaultChecked emptyDefault = Some (Indices []) /\
  truthy_checked (Indices []) = true /\
  findDefaultChecked emptyDefault = Indices [0] /\
  state_checked (initialState emptyDefault) = Indices [].
Proof.
  split; [reflexivity|]. split; [reflexivity|]. split; [reflexivity|].
  exact (proj1 (explicit_default_overrides_children emptyDefault (Indices [])
                  eq_refl eq_refl)).
Defined.
